(** * nasa-forecastr: the [predict-weather] edge function

    A shallow embedding of the historical-aggregation engine, in its
    regional variant (five grid points): the helpers [calculateStdDev],
    [calculateTrend], [fetchLocationData] and the [serve] handler,
    followed by the properties of the specification.  The single-point
    variant of the handler, the variable selection of the search form
    and the trend icon of the results card are embedded beside it.

    Conventions of the embedding.
    - A JavaScript [number] is an IEEE 754 binary64 value: a finite
      value, given by the rational it stands for, or one of [NaN],
      [+Infinity], [-Infinity].  Every arithmetic operation delivers the
      exact result rounded to the nearest binary64 value, ties to even
      ([round64]), with gradual underflow and overflow to an infinity;
      the sign of zero is not modelled (the only zero the code divides
      by is [Math.sqrt(0)], which is positive, and [JSON.stringify]
      prints [-0] as [0]).  Finite values are kept in lowest terms.
    - A field of the request body is a primitive value; an object or an
      array stands for the primitive the handler converts it to, or for
      the [TypeError] of a conversion that fails.
    - The world the handler talks to (the clock, the [Date] constructor,
      the conversion of strings to numbers, the upstream archive and
      the order in which its replies arrive) is an explicit environment
      [Env].
    - The handler returns the list of upstream requests it issued
      together with its HTTP response.
    - A date -> value object is the list of its entries in the order
      [Object.values] enumerates them. *)

From Stdlib Require Import ZArith QArith Qround Qreduction Qabs Qpower Lqa Lia.
From Stdlib Require Import List String Ascii Bool DecimalString Permutation.
Import ListNotations.

Local Open Scope Q_scope.

(* ================================================================== *)
(** ** JavaScript numbers *)

Module JSNumber.

Inductive number : Type :=
| Fin (q : Q)
| NaN
| PosInf
| NegInf.

Definition of_Z (z : Z) : number := Fin (inject_Z z).
Definition of_nat (n : nat) : number := of_Z (Z.of_nat n).

(** An infinity of the sign of [c] times the sign of [inf]; [NaN] when
    [c] is zero ([Infinity * 0]). *)
Definition scale_inf (positive : bool) (c : comparison) : number :=
  match c with
  | Eq => NaN
  | Gt => if positive then PosInf else NegInf
  | Lt => if positive then NegInf else PosInf
  end.

(** *** The four operations, up to the rounding of a finite result *)

Section Rounded.

(** [rnd q] is the number delivered when the exact result is [q]. *)
Variable rnd : Q -> number.

(** [x + y] *)
Definition add_with (x y : number) : number :=
  match x, y with
  | NaN, _ | _, NaN => NaN
  | Fin a, Fin b => rnd (a + b)
  | PosInf, NegInf | NegInf, PosInf => NaN
  | PosInf, _ | _, PosInf => PosInf
  | NegInf, _ | _, NegInf => NegInf
  end.

(** [x - y] *)
Definition sub_with (x y : number) : number :=
  match x, y with
  | NaN, _ | _, NaN => NaN
  | Fin a, Fin b => rnd (a - b)
  | PosInf, PosInf | NegInf, NegInf => NaN
  | PosInf, _ | _, NegInf => PosInf
  | NegInf, _ | _, PosInf => NegInf
  end.

(** [x * y] *)
Definition mul_with (x y : number) : number :=
  match x, y with
  | NaN, _ | _, NaN => NaN
  | Fin a, Fin b => rnd (a * b)
  | PosInf, Fin b | Fin b, PosInf => scale_inf true (b ?= 0)
  | NegInf, Fin b | Fin b, NegInf => scale_inf false (b ?= 0)
  | PosInf, PosInf | NegInf, NegInf => PosInf
  | PosInf, NegInf | NegInf, PosInf => NegInf
  end.

(** [x / y].  A finite non-zero value over zero is an infinity, zero over
    zero is [NaN]. *)
Definition div_with (x y : number) : number :=
  match x, y with
  | NaN, _ | _, NaN => NaN
  | Fin a, Fin b =>
      if Qeq_bool b 0
      then match a ?= 0 with Eq => NaN | Gt => PosInf | Lt => NegInf end
      else rnd (a / b)
  | Fin _, (PosInf | NegInf) => Fin 0
  | PosInf, Fin b => match b ?= 0 with Lt => NegInf | _ => PosInf end
  | NegInf, Fin b => match b ?= 0 with Lt => PosInf | _ => NegInf end
  | (PosInf | NegInf), (PosInf | NegInf) => NaN
  end.

(** [Math.pow(x, n)] for a natural exponent [n].  The code only uses the
    exponent 2, for which the engine returns [x * x]. *)
Fixpoint pow_with (x : number) (n : nat) : number :=
  match n with
  | O => Fin 1
  | S O => x
  | S m => mul_with x (pow_with x m)
  end.

(** [values.reduce((a, b) => a + b, 0)] *)
Definition sum_with (values : list number) : number :=
  fold_left add_with values (Fin 0).

End Rounded.

(** *** Rounding to binary64 *)

(** [2^e], for any integer [e]. *)
Definition pow2 (e : Z) : Q := Qpower 2 e.

(** The integer [e] with [2^e <= q < 2^(e+1)], for [q > 0]. *)
Definition ilog2 (q : Q) : Z :=
  let k := (Z.log2 (Qnum q) - Z.log2 (Zpos (Qden q)))%Z in
  if Qle_bool (pow2 k) q then k else (k - 1)%Z.

(** The nearest integer, ties to the even one. *)
Definition round_half_even (x : Q) : Z :=
  let f := Qfloor x in
  match Qcompare (x - inject_Z f) (1 # 2) with
  | Lt => f
  | Gt => (f + 1)%Z
  | Eq => if Z.even f then f else (f + 1)%Z
  end.

(** The exponent of the last binary digit kept for [q]: 52 digits below
    the leading one, and never below [2^-1074] (subnormal values). *)
Definition quantum (q : Q) : Z := (Z.max (ilog2 (Qabs q)) (-1022) - 52)%Z.

(** The binary64 value nearest to [q], ties to even; an infinity from
    [2^1024] on. *)
Definition round64 (q : Q) : number :=
  let r := Qred q in
  if Qeq_bool r 0 then Fin 0
  else
    let c := quantum r in
    let v := inject_Z (round_half_even (r / pow2 c)) * pow2 c in
    if Qle_bool (pow2 1024) (Qabs v)
    then (if Qle_bool 0 r then PosInf else NegInf)
    else Fin (Qred v).

(** No rounding at all: the arithmetic of the rationals. *)
Definition exact (q : Q) : number := Fin (Qred q).

(** *** The operations of the program *)

Definition nadd : number -> number -> number := add_with round64.
Definition nsub : number -> number -> number := sub_with round64.
Definition nmul : number -> number -> number := mul_with round64.
Definition ndiv : number -> number -> number := div_with round64.
Definition Math_pow : number -> nat -> number := pow_with round64.
Definition sum : list number -> number := sum_with round64.

(** A decimal literal of the source, or a number read from JSON. *)
Definition literal (q : Q) : number := round64 q.

(** [x > y]; false as soon as one side is [NaN]. *)
Definition ngt (x y : number) : bool :=
  match x, y with
  | Fin a, Fin b => negb (Qle_bool a b)
  | PosInf, (Fin _ | NegInf) => true
  | Fin _, NegInf => true
  | _, _ => false
  end.

(** [x < y] *)
Definition nlt (x y : number) : bool := ngt y x.

(** [x === y] on numbers; [NaN] equals nothing. *)
Definition strict_eq (x y : number) : bool :=
  match x, y with
  | Fin a, Fin b => Qeq_bool a b
  | PosInf, PosInf | NegInf, NegInf => true
  | _, _ => false
  end.

(** [x !== y] *)
Definition strict_neq (x y : number) : bool := negb (strict_eq x y).

(** [Math.round]: the nearest integer, ties towards [+Infinity].  The
    result is exact: below [2^52] in magnitude the integer is a binary64
    value, and from there on [x] is an integer already. *)
Definition Math_round (x : number) : number :=
  match x with
  | Fin a => of_Z (Qfloor (a + (1 # 2)))
  | _ => x
  end.

(** The square root of [q >= 0], correctly rounded: [s] is the root
    truncated after [k] binary digits, with at least 64 significant
    ones, and [sticky] tells whether anything was cut off; a value
    strictly between [s] and [s + 1] rounds as [s + 1/2] does. *)
Definition sqrt64 (q : Q) : number :=
  let r := Qred q in
  let n := Qnum r in
  let d := Zpos (Qden r) in
  if (n =? 0)%Z then Fin 0
  else
    let k := (64 + Z.log2 d)%Z in
    let t := (n * 4 ^ k)%Z in
    let s := Z.sqrt (t / d) in
    let sticky := if (s * s * d =? t)%Z then 0%Z else 1%Z in
    round64 (Qmake (2 * s + sticky) (Z.to_pos (2 ^ (k + 1)))).

(** [Math.sqrt] *)
Definition Math_sqrt (x : number) : number :=
  match x with
  | Fin a => if Qle_bool 0 a then sqrt64 a else NaN
  | PosInf => PosInf
  | _ => NaN
  end.

(** [values.length] as a number (an array has fewer than [2^32]
    elements, so the length is a binary64 value). *)
Definition len {A} (values : list A) : number := of_nat (List.length values).

End JSNumber.
Import JSNumber.

(* ================================================================== *)
(** ** Strings: the two conversions the handler uses *)

(** [Number.prototype.toString] on an integer. *)
Definition Z_toString (z : Z) : string := NilZero.string_of_int (Z.to_int z).

(** A value that is an integer or [NaN], as the [Date] getters return. *)
Definition int_or_NaN := option Z.

Definition toString (v : int_or_NaN) : string :=
  match v with
  | Some z => Z_toString z
  | None => "NaN"
  end.

(** [fuel] characters read cyclically from [pad], continuing at [cur]. *)
Fixpoint cycle (fuel : nat) (pad cur : string) : string :=
  match fuel with
  | O => ""
  | S f =>
      match cur with
      | String c rest => String c (cycle f pad rest)
      | EmptyString =>
          match pad with
          | String c rest => String c (cycle f pad rest)
          | EmptyString => ""
          end
      end
  end.

(** [s.padStart(targetLength, pad)] *)
Definition padStart (s : string) (targetLength : nat) (pad : string) : string :=
  if (targetLength <=? String.length s)%nat then s
  else (cycle (targetLength - String.length s) pad pad ++ s)%string.

(* ================================================================== *)
(** ** Helper functions of the edge function *)

(** [calculateStdDev(values, mean)] *)
Definition calculateStdDev (values : list number) (mean : number) : number :=
  if (List.length values =? 0)%nat then Fin 0
  else
    let squaredDiffs := map (fun v => Math_pow (nsub v mean) 2) values in
    let variance := ndiv (sum squaredDiffs) (len values) in
    Math_sqrt variance.

(** [calculateTrend], with the rounding of its operations left open:
    [calculateTrend_with round64] is the function of the program,
    [calculateTrend_with exact] the same formula over the rationals. *)
Section TrendFormula.

Variable rnd : Q -> number.

(** One turn of the loop of [calculateTrend], on the pair
    [(numerator, denominator)].  An index out of range reads [undefined],
    which arithmetic turns into [NaN]. *)
Definition trend_step_with (indices values : list number) (meanX meanY : number)
    (acc : number * number) (i : nat) : number * number :=
  let '(numerator, denominator) := acc in
  (add_with rnd numerator
     (mul_with rnd (sub_with rnd (nth i indices NaN) meanX)
                   (sub_with rnd (nth i values NaN) meanY)),
   add_with rnd denominator
     (pow_with rnd (sub_with rnd (nth i indices NaN) meanX) 2)).

(** The pair [(numerator, denominator)] when the loop ends. *)
Definition trend_sums_with (values : list number) : number * number :=
  let n := List.length values in
  let indices := map of_nat (seq 0 n) in
  let meanX := div_with rnd (sum_with rnd indices) (of_nat n) in
  let meanY := div_with rnd (sum_with rnd values) (of_nat n) in
  fold_left (trend_step_with indices values meanX meanY) (seq 0 n) (Fin 0, Fin 0).

(** [calculateTrend(values)] *)
Definition calculateTrend_with (values : list number) : number :=
  if (List.length values <? 2)%nat then Fin 0
  else
    let '(numerator, denominator) := trend_sums_with values in
    if strict_neq denominator (Fin 0) then div_with rnd numerator denominator
    else Fin 0.

End TrendFormula.


(** [calculateTrend(values)], as the program computes it. *)
Definition calculateTrend : list number -> number := calculateTrend_with round64.

(* ================================================================== *)
(** ** Data model *)

(** The primitive values a field of the request body can hold; a field
    that is an object or an array is dealt with in [RequestBody]. *)
Inductive jsval : Type :=
| JUndefined
| JNull
| JBool (b : bool)
| JNum (x : number)
| JStr (s : string).

(** What [new Date(v)] denotes in local time: an invalid date, or a
    calendar day ([month0] counts from 0 as [getMonth] does). *)
Inductive JSDate : Type :=
| InvalidDate
| ValidDate (year month0 day : Z).

Definition getMonth (d : JSDate) : int_or_NaN :=
  match d with
  | InvalidDate => None
  | ValidDate _ m _ => Some m
  end.

Definition getDate (d : JSDate) : int_or_NaN :=
  match d with
  | InvalidDate => None
  | ValidDate _ _ day => Some day
  end.

(** RawSeries: the entries of a date -> value object, in the order
    [Object.values] enumerates them. *)
Definition RawSeries := list (string * number).

(** The three series of a reply; [None] stands for a missing (or falsy)
    member, which the handler replaces by the empty object. *)
Record ParameterBlock : Type := {
  T2M : option RawSeries;
  PRECTOTCORR : option RawSeries;
  WS10M : option RawSeries
}.

Record Properties : Type := { parameter : option ParameterBlock }.

(** The decoded body of an upstream reply; every level may be absent. *)
Record NasaData : Type := { properties : option Properties }.

(** What [response.json()] gives: a syntax error, the JSON value [null],
    or any other JSON value read as [NasaData]. *)
Inductive Payload : Type :=
| BadJson (message : string)
| JsonNull
| Json (d : NasaData).

(** The outcome of one [fetch]. *)
Inductive Reply : Type :=
| NetworkError (message : string)
| HttpReply (status : Z) (payload : Payload).

(** The varying parts of the upstream URL. *)
Record FetchRequest : Type := {
  latitude : jsval;
  longitude : jsval;
  start : string;
  end_ : string;
  parameters : string
}.

Record GridPoint : Type := { lat : jsval; lon : jsval }.

(** The environment of one invocation.  [upstream i r] is the outcome of
    the [i]-th fetch issued, with request [r]; [settles_at i] is the
    logical time at which its promise settles. *)
Record Env : Type := {
  currentYear : Z;
  Date_ctor : jsval -> JSDate;
  StringToNumber : string -> number;
  upstream : nat -> FetchRequest -> Reply;
  settles_at : nat -> nat
}.

(** A promise once settled. *)
Inductive Settled (A : Type) : Type :=
| Fulfilled (value : A)
| Rejected (message : string).
Arguments Fulfilled {A} value.
Arguments Rejected {A} message.

(** The result of [await req.json()] followed by the destructuring
    [{ lat, lon, date, variables }]: either of them throws, or the four
    fields are bound (to [undefined] when absent).

    In [BodyFields] the three fields the handler reads are primitive
    values.  [BodyObjects] is for the bodies in which [lat], [lon] or
    [date] is an object or an array.  The handler only ever converts
    such a value to a primitive ([new Date(date)], [lat + 0.5],
    [lat - 0.5], the template of the URL), which gives a string
    (["[object Object]"], the joined elements of an array) or, for an
    object with an own [toString] property, throws a [TypeError]; so a
    field is given by the primitive it stands for, [None] standing for
    an object that cannot be converted. *)
Inductive RequestBody : Type :=
| BodyThrows (message : string)
| BodyFields (lat lon date : jsval) (variables : option (list string))
| BodyObjects (lat lon date : option jsval) (variables : option (list string)).

Record Request : Type := { method : string; body : RequestBody }.

Record ConfidenceRange : Type := { lower : number; upper : number }.

Record PredictionResult : Type := {
  average_temp : number;
  temp_std_dev : number;
  temp_confidence_range : ConfidenceRange;
  temp_trend : string;
  temp_trend_value : number;
  average_precip : number;
  precip_std_dev : number;
  rain_probability : number;
  hot_probability : number;
  cold_probability : number;
  wind_probability : number;
  data_years : number;
  data_points : number;
  regional_coverage : string
}.

Inductive Response : Type :=
| Preflight
| Ok200 (result : PredictionResult)
| Err500 (error : string).

Definition status_of (r : Response) : Z :=
  match r with
  | Err500 _ => 500
  | _ => 200
  end.

(* ================================================================== *)
(** ** Coercions on request fields *)

Definition ToNumber (env : Env) (v : jsval) : number :=
  match v with
  | JUndefined => NaN
  | JNull => Fin 0
  | JBool b => if b then Fin 1 else Fin 0
  | JNum x => x
  | JStr s => StringToNumber env s
  end.

(** [v + 0.5] on a primitive value: concatenation on a string, addition
    otherwise. *)
Definition js_add_half (env : Env) (v : jsval) : jsval :=
  match v with
  | JStr s => JStr (s ++ "0.5")
  | _ => JNum (nadd (ToNumber env v) (Fin (1 # 2)))
  end.

(** [v - 0.5] on a primitive value. *)
Definition js_sub_half (env : Env) (v : jsval) : jsval :=
  JNum (nsub (ToNumber env v) (Fin (1 # 2))).

(* ================================================================== *)
(** ** Fetching one grid point *)

(** [response.ok] *)
Definition response_ok (status : Z) : bool :=
  ((200 <=? status) && (status <=? 299))%Z.

(** [fetchLocationData(lat, lon, startDate, endDate, parameters)], as the
    [i]-th fetch of the invocation: the request it issues and how its
    promise settles.  A fulfilled [None] is the JSON value [null]. *)
Definition fetchLocationData (env : Env) (i : nat) (lat lon : jsval)
    (startDate endDate parameters : string)
  : FetchRequest * Settled (option NasaData) :=
  let nasaUrl := {| latitude := lat; longitude := lon; start := startDate;
                    end_ := endDate; parameters := parameters |} in
  (nasaUrl,
   match upstream env i nasaUrl with
   | NetworkError message => Rejected message
   | HttpReply status payload =>
       if negb (response_ok status)
       then Rejected ("NASA API error: " ++ Z_toString status)
       else match payload with
            | BadJson message => Rejected message
            | JsonNull => Fulfilled None
            | Json d => Fulfilled (Some d)
            end
   end).

(** The rejection that settles first, with its time; the leftmost one
    among those settling at the same time. *)
Fixpoint first_rejection {A} (ps : list (nat * Settled A)) : option (nat * string) :=
  match ps with
  | [] => None
  | (_, Fulfilled _) :: rest => first_rejection rest
  | (t, Rejected m) :: rest =>
      match first_rejection rest with
      | Some (t', m') => if (t' <? t)%nat then Some (t', m') else Some (t, m)
      | None => Some (t, m)
      end
  end.

Fixpoint fulfilled_values {A} (ps : list (nat * Settled A)) : list A :=
  match ps with
  | [] => []
  | (_, Fulfilled v) :: rest => v :: fulfilled_values rest
  | (_, Rejected _) :: rest => fulfilled_values rest
  end.

(** [Promise.all] over promises tagged with their settling time: the
    values in order when all are fulfilled, the earliest rejection
    otherwise. *)
Definition Promise_all {A} (ps : list (nat * Settled A)) : Settled (list A) :=
  match first_rejection ps with
  | Some (_, m) => Rejected m
  | None => Fulfilled (fulfilled_values ps)
  end.

(* ================================================================== *)
(** ** Pooling *)

(** [nasaData.properties?.parameter?.X || {}] *)
Definition series_of (X : ParameterBlock -> option RawSeries) (nasaData : NasaData)
  : RawSeries :=
  match properties nasaData with
  | None => []
  | Some props =>
      match parameter props with
      | None => []
      | Some block =>
          match X block with
          | None => []
          | Some series => series
          end
      end
  end.

Definition SENTINEL : number := Fin (-999).

(** [Object.values(series).filter(v => v !== -999)] *)
Definition sentinel_filter (series : RawSeries) : list number :=
  filter (fun v => strict_neq v SENTINEL) (map snd series).

Record Pooled : Type := {
  allTempValues : list number;
  allPrecipValues : list number;
  allWindValues : list number
}.

(** The loop over [regionalData].  Reading [.properties] of [null]
    throws a [TypeError]. *)
Fixpoint pool (regionalData : list (option NasaData)) (acc : Pooled) : Settled Pooled :=
  match regionalData with
  | [] => Fulfilled acc
  | None :: _ => Rejected "Cannot read properties of null (reading 'properties')"
  | Some nasaData :: rest =>
      pool rest
        {| allTempValues :=
             allTempValues acc ++ sentinel_filter (series_of T2M nasaData);
           allPrecipValues :=
             allPrecipValues acc ++ sentinel_filter (series_of PRECTOTCORR nasaData);
           allWindValues :=
             allWindValues acc ++ sentinel_filter (series_of WS10M nasaData) |}
  end.

(* ================================================================== *)
(** ** Statistics of the pooled samples *)

(** [values.length > 0 ? values.reduce(...) / values.length : default] *)
Definition average (values : list number) (default : number) : number :=
  if (0 <? List.length values)%nat then ndiv (sum values) (len values)
  else default.

(** [values.length > 0
      ? Math.round((values.filter(p).length / values.length) * 100) : 0] *)
Definition probability (p : number -> bool) (values : list number) : number :=
  if (0 <? List.length values)%nat
  then Math_round (nmul (ndiv (len (filter p values)) (len values)) (Fin 100))
  else Fin 0.

Definition rainy (p : number) : bool := ngt p (Fin 1).
Definition hot (t : number) : bool := ngt t (Fin 35).
Definition cold (t : number) : bool := nlt t (Fin 10).
Definition windy (w : number) : bool := ngt w (Fin 10).

(** [Math.round(x * k) / k] *)
Definition round_to (k : Z) (x : number) : number :=
  ndiv (Math_round (nmul x (of_Z k))) (of_Z k).

(** The literal [1.96]. *)
Definition z_score : number := literal (196 # 100).

Definition margin_of_error (values : list number) (std_dev : number) : number :=
  nmul z_score (ndiv std_dev (Math_sqrt (len values))).

Definition trend_label (temp_trend : number) : string :=
  if ngt temp_trend (literal (1 # 100)) then "warming"
  else if nlt temp_trend (literal (- 1 # 100)) then "cooling"
  else "stable".

(** The statistics block and the [result] object of the handler;
    [gridCount] is [gridPoints.length]. *)
Definition assemble (gridCount : nat) (p : Pooled) : PredictionResult :=
  let average_temp := average (allTempValues p) (Fin 20) in
  let temp_std_dev := calculateStdDev (allTempValues p) average_temp in
  let temp_trend := calculateTrend (allTempValues p) in
  let margin := margin_of_error (allTempValues p) temp_std_dev in
  let temp_confidence_lower := nsub average_temp margin in
  let temp_confidence_upper := nadd average_temp margin in
  let average_precip := average (allPrecipValues p) (Fin 0) in
  let precip_std_dev := calculateStdDev (allPrecipValues p) average_precip in
  {| average_temp := round_to 10 average_temp;
     temp_std_dev := round_to 10 temp_std_dev;
     temp_confidence_range :=
       {| lower := round_to 10 temp_confidence_lower;
          upper := round_to 10 temp_confidence_upper |};
     temp_trend := trend_label temp_trend;
     temp_trend_value := round_to 1000 temp_trend;
     average_precip := round_to 100 average_precip;
     precip_std_dev := round_to 100 precip_std_dev;
     rain_probability := probability rainy (allPrecipValues p);
     hot_probability := probability hot (allTempValues p);
     cold_probability := probability cold (allTempValues p);
     wind_probability := probability windy (allWindValues p);
     data_years := Fin 15;
     data_points := len (allTempValues p);
     regional_coverage :=
       "~50km radius (" ++ Z_toString (Z.of_nat gridCount) ++ " grid points)" |}.

(* ================================================================== *)
(** ** The handler *)

Definition PARAMETERS : string := "T2M,PRECTOTCORR,WS10M".

(** [`${year}${month.toString().padStart(2,'0')}${day.toString().padStart(2,'0')}`] *)
Definition yyyymmdd (year : Z) (month day : int_or_NaN) : string :=
  Z_toString year ++ padStart (toString month) 2 "0"
                  ++ padStart (toString day) 2 "0".

Definition gridPoints (env : Env) (lat lon : jsval) : list GridPoint :=
  [ {| lat := lat; lon := lon |};
    {| lat := js_add_half env lat; lon := lon |};
    {| lat := js_sub_half env lat; lon := lon |};
    {| lat := lat; lon := js_add_half env lon |};
    {| lat := lat; lon := js_sub_half env lon |} ].

(** [startDate] and [endDate] of the handler. *)
Definition window (env : Env) (date : jsval) : string * string :=
  let targetDate := Date_ctor env date in
  let month := option_map (Z.add 1) (getMonth targetDate) in
  let day := getDate targetDate in
  let startYear := (currentYear env - 15)%Z in
  let endYear := (currentYear env - 1)%Z in
  (yyyymmdd startYear month day, yyyymmdd endYear month day).

(** [gridPoints.map(point => fetchLocationData(...))]: every fetch is
    started, in grid order. *)
Definition fan_out (env : Env) (points : list GridPoint) (startDate endDate : string)
  : list (FetchRequest * Settled (option NasaData)) :=
  map (fun ip : nat * GridPoint =>
         fetchLocationData env (fst ip) (lat (snd ip)) (lon (snd ip))
                           startDate endDate PARAMETERS)
      (combine (seq 0 (List.length points)) points).

(** The [TypeError] of [new Date(date)], [lat + 0.5] or [lon + 0.5] on an
    object that cannot be converted to a primitive. *)
Definition NOT_PRIMITIVE : string := "Cannot convert object to primitive value".

(** The [try] block from the window on, for fields the conversions
    accept: the upstream requests issued, and the response. *)
Definition predict (env : Env) (lat lon date : jsval) : list FetchRequest * Response :=
  let '(startDate, endDate) := window env date in
  let points := gridPoints env lat lon in
  let calls := fan_out env points startDate endDate in
  let issued := map fst calls in
  let promises :=
    map (fun ic : nat * (FetchRequest * Settled (option NasaData)) =>
           (settles_at env (fst ic), snd (snd ic)))
        (combine (seq 0 (List.length calls)) calls) in
  match Promise_all promises with
  | Rejected message => (issued, Err500 message)
  | Fulfilled regionalData =>
      match pool regionalData
                 {| allTempValues := []; allPrecipValues := [];
                    allWindValues := [] |} with
      | Rejected message => (issued, Err500 message)
      | Fulfilled pooled =>
          (issued, Ok200 (assemble (List.length points) pooled))
      end
  end.

(** [serve(async (req) => ...)]: the upstream requests issued, and the
    response.  The window and the grid are built before the first
    fetch, so a field that cannot be converted is met before any
    request is issued. *)
Definition serve (env : Env) (req : Request) : list FetchRequest * Response :=
  if String.eqb (method req) "OPTIONS" then ([], Preflight)
  else
    match body req with
    | BodyThrows message => ([], Err500 message)
    | BodyFields lat lon date variables => predict env lat lon date
    | BodyObjects lat lon date variables =>
        match date, lat, lon with
        | Some date, Some lat, Some lon => predict env lat lon date
        | _, _, _ => ([], Err500 NOT_PRIMITIVE)
        end
    end.

(* ================================================================== *)
(** ** The single-point handler *)

(** The first variant of the edge function: one fetch for the queried
    point, no grid.  It shares the window, the parameters, the sentinel
    filter and the probability formulas with the regional handler. *)
Module SinglePoint.

Record Result : Type := {
  average_temp : number;
  rain_probability : number;
  hot_probability : number;
  cold_probability : number;
  wind_probability : number;
  data_years : number
}.

Inductive Response : Type :=
| Preflight
| Ok200 (result : Result)
| Err500 (error : string).

(** [nasaData.properties.parameter]: without optional chaining, reading a
    member of [null] or [undefined] throws a [TypeError]. *)
Definition parameter_of (nasaData : option NasaData) : Settled ParameterBlock :=
  match nasaData with
  | None => Rejected "Cannot read properties of null (reading 'properties')"
  | Some d =>
      match properties d with
      | None => Rejected "Cannot read properties of undefined (reading 'parameter')"
      | Some props =>
          match parameter props with
          | None => Rejected "Cannot read properties of undefined (reading 'T2M')"
          | Some block => Fulfilled block
          end
      end
  end.

(** [block.X || {}] *)
Definition or_empty (series : option RawSeries) : RawSeries :=
  match series with
  | Some s => s
  | None => []
  end.

(** The statistics block and the [result] object. *)
Definition summarise (block : ParameterBlock) : Result :=
  let tempValues := sentinel_filter (or_empty (T2M block)) in
  let precipValues := sentinel_filter (or_empty (PRECTOTCORR block)) in
  let windValues := sentinel_filter (or_empty (WS10M block)) in
  let average_temp := average tempValues (Fin 20) in
  {| average_temp := round_to 10 average_temp;
     rain_probability := probability rainy precipValues;
     hot_probability := probability hot tempValues;
     cold_probability := probability cold tempValues;
     wind_probability := probability windy windValues;
     data_years := len tempValues |}.

(** The [try] block from the window on, for fields the conversions
    accept. *)
Definition predict (env : Env) (lat lon date : jsval) : list FetchRequest * Response :=
  let '(startDate, endDate) := window env date in
  let nasaUrl := {| latitude := lat; longitude := lon; start := startDate;
                    end_ := endDate; parameters := PARAMETERS |} in
  match upstream env 0 nasaUrl with
  | NetworkError message => ([nasaUrl], Err500 message)
  | HttpReply status payload =>
      if negb (response_ok status)
      then ([nasaUrl], Err500 ("NASA API error: " ++ Z_toString status))
      else
        let nasaData :=
          match payload with
          | BadJson message => Rejected message
          | JsonNull => Fulfilled None
          | Json d => Fulfilled (Some d)
          end in
        match nasaData with
        | Rejected message => ([nasaUrl], Err500 message)
        | Fulfilled nasaData =>
            match parameter_of nasaData with
            | Rejected message => ([nasaUrl], Err500 message)
            | Fulfilled block => ([nasaUrl], Ok200 (summarise block))
            end
        end
  end.

(** [serve(async (req) => ...)]: the upstream requests issued, and the
    response.  Here the fields are converted by [new Date(date)] and by
    the template of the URL, again before the fetch. *)
Definition serve (env : Env) (req : Request) : list FetchRequest * Response :=
  if String.eqb (method req) "OPTIONS" then ([], Preflight)
  else
    match body req with
    | BodyThrows message => ([], Err500 message)
    | BodyFields lat lon date variables => predict env lat lon date
    | BodyObjects lat lon date variables =>
        match date, lat, lon with
        | Some date, Some lat, Some lon => predict env lat lon date
        | _, _, _ => ([], Err500 NOT_PRIMITIVE)
        end
    end.

End SinglePoint.

(* ================================================================== *)
(** ** The search form and the results card *)

Module DateLocationInput.

(** The initial state of [selectedVariables]. *)
Definition initial_selection : list string := ["temperature"; "rainfall"]%string.

(** The updater of [toggleVariable(variableId)], applied to the previous
    selection: [prev.includes(variableId) ? prev.filter((v) => v !==
    variableId) : [...prev, variableId]]. *)
Definition toggleVariable (variableId : string) (prev : list string) : list string :=
  if existsb (String.eqb variableId) prev
  then filter (fun v => negb (String.eqb v variableId)) prev
  else prev ++ [variableId].

End DateLocationInput.

Module WeatherResults.

Inductive Icon : Type := Minus | TrendingUp | TrendingDown.

(** [getTrendIcon()], on [data.temp_trend]; [None] is [undefined]. *)
Definition getTrendIcon (temp_trend : option string) : Icon :=
  match temp_trend with
  | None => Minus
  | Some s =>
      if String.eqb s "" then Minus
      else if String.eqb s "warming" then TrendingUp
      else if String.eqb s "cooling" then TrendingDown
      else Minus
  end.

End WeatherResults.

(* ================================================================== *)
(** * Vocabulary of the properties *)

(** ** Finite values and sums *)

(** [x] is a finite number whose value is the rational [q]. *)
Definition denotes (x : number) (q : Q) : Prop :=
  exists q', x = Fin q' /\ q' == q.

(** [f 0 + f 1 + ... + f (n-1)] *)
Fixpoint Qsum_upto (f : nat -> Q) (n : nat) : Q :=
  match n with
  | O => 0
  | S k => Qsum_upto f k + f k
  end.

(** The value [round64] delivers before the overflow test. *)
Definition rounded (r : Q) : Q :=
  inject_Z (round_half_even (r / pow2 (quantum r))) * pow2 (quantum r).

(** ** Regression *)

Definition idx (i : nat) : Q := inject_Z (Z.of_nat i).

(** The ordinary-least-squares slope of [ys] against the indices
    [0, 1, ..., n-1], by the closed form of the normal equations:
    [(n Sxy - Sx Sy) / (n Sxx - Sx Sx)]. *)
Definition ols_slope (ys : list Q) : Q :=
  let n := List.length ys in
  let y := fun i => nth i ys 0 in
  let Sx := Qsum_upto idx n in
  let Sy := Qsum_upto y n in
  let Sxy := Qsum_upto (fun i => idx i * y i) n in
  let Sxx := Qsum_upto (fun i => idx i * idx i) n in
  (idx n * Sxy - Sx * Sy) / (idx n * Sxx - Sx * Sx).

(** The perfectly linear sequence [a, a+d, a+2d, ...] of length [n]. *)
Definition linear (a d : Q) (n : nat) : list Q :=
  map (fun i => a + d * idx i) (seq 0 n).





(** ** Sentinel removal and percentages *)

(** [v] is the fill value -999. *)
Definition is_sentinel (v : number) : Prop := denotes v (-999).

(** [kept] is [values] with every sentinel removed and the order of the
    others unchanged. *)
Inductive Purged : list number -> list number -> Prop :=
| Purged_nil : Purged [] []
| Purged_drop v values kept :
    is_sentinel v -> Purged values kept -> Purged (v :: values) kept
| Purged_keep v values kept :
    ~ is_sentinel v -> Purged values kept -> Purged (v :: values) (v :: kept).

(** [k] is [count] out of [total] as a percentage rounded to an integer.
    It is 0 when [total] is 0.  Otherwise it differs from the exact
    percentage [100 * count / total] by less than 1, so it is that
    percentage when it is an integer; and when [total] is below [2^32],
    as the length of an array is, it differs from it by at most 1/2: it
    is a nearest integer. *)
Definition is_percentage (count total : nat) (k : Z) : Prop :=
  if (total =? 0)%nat then k = 0%Z
  else (Z.abs (k * Z.of_nat total - 100 * Z.of_nat count) < Z.of_nat total)%Z
       /\ ((Z.of_nat total < 2 ^ 32)%Z ->
           (2 * Z.abs (k * Z.of_nat total - 100 * Z.of_nat count) <= Z.of_nat total)%Z).

(** [count] out of [total], as a fraction. *)
Definition share (count total : nat) : Q :=
  Z.of_nat count # Z.to_pos (Z.of_nat total).

(** What the code makes of a share [q]: [Math.round(q * 100)] on the
    binary64 value of [q]. *)
Definition percent_of (q : Q) : number :=
  Math_round (nmul (round64 q) (Fin 100)).

(** ** The fan-out of one query *)

(** The upstream request for one grid point. *)
Definition request_of (startDate endDate : string) (point : GridPoint) : FetchRequest :=
  {| latitude := lat point; longitude := lon point;
     start := startDate; end_ := endDate; parameters := PARAMETERS |}.

(** The upstream requests of a query, in grid order. *)
Definition grid_requests (env : Env) (lat lon date : jsval) : list FetchRequest :=
  map (request_of (fst (window env date)) (snd (window env date)))
      (gridPoints env lat lon).

(** How the promise of the [i]-th fetch, with request [q], settles. *)
Definition settle (env : Env) (i : nat) (q : FetchRequest) : Settled (option NasaData) :=
  snd (fetchLocationData env i (latitude q) (longitude q) (start q) (end_ q)
                         (parameters q)).

Definition promises_of (env : Env) (requests : list FetchRequest)
  : list (nat * Settled (option NasaData)) :=
  map (fun iq : nat * FetchRequest =>
         (settles_at env (fst iq), settle env (fst iq) (snd iq)))
      (combine (seq 0 (List.length requests)) requests).

Definition no_samples : Pooled :=
  {| allTempValues := []; allPrecipValues := []; allWindValues := [] |}.

(** A reply none of whose three series has a usable value. *)
Definition no_usable_value (d : NasaData) : Prop :=
  sentinel_filter (series_of T2M d) = []
  /\ sentinel_filter (series_of PRECTOTCORR d) = []
  /\ sentinel_filter (series_of WS10M d) = [].

(** The entry with key [key] (a YYYYMMDD string) is for the calendar day
    [mmdd]. *)
Definition on_calendar_day (mmdd key : string) : bool :=
  String.eqb (substring 4 4 key) mmdd.

Definition is_numeric (v : jsval) : bool :=
  match v with
  | JNum (Fin _) => true
  | _ => false
  end.

Definition is_invalid (d : JSDate) : bool :=
  match d with
  | InvalidDate => true
  | ValidDate _ _ _ => false
  end.

(** The body lacks a numeric [lat] or [lon], or a date the [Date]
    constructor accepts. *)
Definition malformed (env : Env) (req : Request) : bool :=
  match body req with
  | BodyThrows _ => true
  | BodyFields lat lon date _ =>
      negb (is_numeric lat) || negb (is_numeric lon)
      || is_invalid (Date_ctor env date)
  | BodyObjects (Some lat) (Some lon) (Some date) _ =>
      negb (is_numeric lat) || negb (is_numeric lon)
      || is_invalid (Date_ctor env date)
  | BodyObjects _ _ _ _ => true
  end.

(** One of [lat], [lon], [date] is an object that cannot be converted to
    a primitive. *)
Definition unconvertible (b : RequestBody) : bool :=
  match b with
  | BodyObjects (Some _) (Some _) (Some _) _ => false
  | BodyObjects _ _ _ _ => true
  | _ => false
  end.

(** The body cannot be read. *)
Definition unreadable (b : RequestBody) : bool :=
  match b with
  | BodyThrows _ => true
  | _ => false
  end.

(** The request is turned down without any upstream fetch. *)
Definition rejected_before_fetch (env : Env) (req : Request) : Prop :=
  fst (serve env req) = [] /\ exists message, snd (serve env req) = Err500 message.

(* ================================================================== *)
(** ** Scenarios *)

Module Scenario.

Definition iso_june15 : string := "2025-06-15T00:00:00.000Z".

(** An invocation in 2025 whose [Date] constructor reads [iso_june15] as
    15 June 2025 and anything else as an invalid date; the [i]-th fetch
    settles at time [i]. *)
Definition in_2025 (up : nat -> FetchRequest -> Reply) : Env :=
  {| currentYear := 2025;
     Date_ctor := fun v =>
       match v with
       | JStr s => if String.eqb s iso_june15 then ValidDate 2025 5 15
                   else InvalidDate
       | _ => InvalidDate
       end;
     StringToNumber := fun _ => NaN;
     upstream := up;
     settles_at := fun i => i |}.

(** The coordinates 40.7128 and -74.006, as read from the JSON body. *)
Definition new_york_lat : number := Eval vm_compute in literal (407128 # 10000).
Definition new_york_lon : number := Eval vm_compute in literal (- 74006 # 1000).

Definition new_york (variables : option (list string)) : Request :=
  {| method := "POST";
     body := BodyFields (JNum new_york_lat) (JNum new_york_lon)
                        (JStr iso_june15) variables |}.

Definition reply_with (t p w : RawSeries) : Reply :=
  HttpReply 200
    (Json {| properties :=
               Some {| parameter :=
                         Some {| T2M := Some t; PRECTOTCORR := Some p;
                                 WS10M := Some w |} |} |}).

(** The archive has no usable day: every value is the fill value. *)
Definition all_missing : Env :=
  in_2025 (fun _ _ =>
             reply_with [("20100615"%string, Fin (-999))]
                        [("20100615"%string, Fin (-999))] []).

(** The fourth grid point (east) is answered with status 404. *)
Definition east_fails : Env :=
  in_2025 (fun i _ =>
             if (i =? 3)%nat then HttpReply 404 JsonNull
             else reply_with [("20100615"%string, Fin 20)] [] []).

(** A daily archive: asked for the range 20100615..20240615 it returns
    one value per day of the range, here cut after its first three
    days; any other range is refused. *)
Definition daily_archive : Env :=
  in_2025 (fun _ q =>
             if (String.eqb (start q) "20100615" && String.eqb (end_ q) "20240615")%bool
             then reply_with [("20100615"%string, Fin 20);
                              ("20100616"%string, Fin 26);
                              ("20100617"%string, Fin 32)] [] []
             else HttpReply 422 JsonNull).

(** The archive refuses every request it cannot parse with status 422. *)
Definition strict_archive : Env :=
  in_2025 (fun _ q =>
             match latitude q, longitude q with
             | JNum (Fin _), JNum (Fin _) => reply_with [] [] []
             | _, _ => HttpReply 422 JsonNull
             end).

(** A body without [lat] and without [date]. *)
Definition missing_lat_and_date : Request :=
  {| method := "POST";
     body := BodyFields JUndefined (JNum new_york_lon) JUndefined None |}.

End Scenario.

(* ================================================================== *)
(** ** Vocabulary of the further properties *)

(** A pooled sample holding only temperatures. *)
Definition temperatures_only (temps : list number) : Pooled :=
  {| allTempValues := temps; allPrecipValues := []; allWindValues := [] |}.

(** A number that is finite and not negative, or [+Infinity]. *)
Definition nonneg_or_infinite (x : number) : Prop :=
  match x with
  | Fin q => 0 <= q
  | PosInf => True
  | _ => False
  end.

(** The decimal digit [z], for [0 <= z <= 9]. *)
Definition digit (z : Z) : ascii := ascii_of_nat (48 + Z.to_nat z).

(** The two decimal digits of [z], for [0 <= z <= 99], and the four of
    [z], for [0 <= z <= 9999]. *)
Definition two_digits (z : Z) : string :=
  String (digit (z / 10)) (String (digit (z mod 10)) "").

Definition four_digits (z : Z) : string :=
  String (digit (z / 1000)) (String (digit (z / 100 mod 10)) (two_digits (z mod 100))).

(** An invocation in 2025 for the target date 5 March 2025; the archive
    is out of reach. *)
Definition asked_in_march : Env :=
  {| currentYear := 2025;
     Date_ctor := fun _ => ValidDate 2025 2 5;
     StringToNumber := fun _ => NaN;
     upstream := fun _ _ => NetworkError "offline";
     settles_at := fun i => i |}.

(* ================================================================== *)
(** * Properties *)

(** ** Rounding to binary64 *)

Section Binary64.

Lemma pow2_pos e : 0 < pow2 e.
Proof. apply Qpower_0_lt. reflexivity. Qed.

Lemma pow2_add a b : pow2 (a + b) == pow2 a * pow2 b.
Proof. apply Qpower_plus. discriminate. Qed.

Lemma pow2_le a b : (a <= b)%Z -> pow2 a <= pow2 b.
Proof. intros H. apply Qpower_le_compat_l; [exact H | discriminate]. Qed.

Lemma pow2_lt a b : (a < b)%Z -> pow2 a < pow2 b.
Proof. intros H. apply Qpower_lt_compat_l; [exact H | reflexivity]. Qed.

Lemma pow2_succ a : pow2 (a + 1) == 2 * pow2 a.
Proof. rewrite pow2_add. change (pow2 1) with 2. ring. Qed.

Lemma pow2_nonneg_exp a : (0 <= a)%Z -> pow2 a == inject_Z (2 ^ a).
Proof. intros H. unfold pow2. rewrite Zpower_Qpower by exact H. reflexivity. Qed.

Lemma ilog2_spec q : 0 < q -> pow2 (ilog2 q) <= q /\ q < pow2 (ilog2 q + 1).
Proof.
  intros Hq. destruct q as [n d].
  assert (Hn : (0 < n)%Z).
  { unfold Qlt in Hq. cbn in Hq. lia. }
  unfold ilog2. cbn [Qnum Qden].
  set (ln := Z.log2 n). set (ld := Z.log2 (Zpos d)).
  assert (Hln := Z.log2_spec n Hn). fold ln in Hln.
  assert (Hld := Z.log2_spec (Zpos d) (Pos2Z.is_pos d)). fold ld in Hld.
  assert (Hln0 : (0 <= ln)%Z) by apply Z.log2_nonneg.
  assert (Hld0 : (0 <= ld)%Z) by apply Z.log2_nonneg.
  assert (Hk : pow2 (ln - ld) * inject_Z (2 ^ ld) == inject_Z (2 ^ ln)).
  { rewrite <- !pow2_nonneg_exp by assumption. rewrite <- pow2_add.
    replace (ln - ld + ld)%Z with ln by lia. reflexivity. }
  assert (HA : 0 < inject_Z (2 ^ ln)).
  { change 0 with (inject_Z 0). rewrite <- Zlt_Qlt. lia. }
  assert (HB : 0 < inject_Z (2 ^ ld)).
  { change 0 with (inject_Z 0). rewrite <- Zlt_Qlt. lia. }
  assert (HD : 0 < inject_Z (Zpos d)) by reflexivity.
  assert (Hnd : n # d == inject_Z n / inject_Z (Zpos d)) by apply Qmake_Qdiv.
  assert (HN1 : inject_Z (2 ^ ln) <= inject_Z n) by (rewrite <- Zle_Qle; lia).
  assert (HN2 : inject_Z n < 2 * inject_Z (2 ^ ln)).
  { change 2 with (inject_Z 2). rewrite <- inject_Z_mult, <- Zlt_Qlt.
    rewrite Z.pow_succ_r in Hln by assumption. lia. }
  assert (HD1 : inject_Z (2 ^ ld) <= inject_Z (Zpos d)) by (rewrite <- Zle_Qle; lia).
  assert (HD2 : inject_Z (Zpos d) < 2 * inject_Z (2 ^ ld)).
  { change 2 with (inject_Z 2). rewrite <- inject_Z_mult, <- Zlt_Qlt.
    rewrite Z.pow_succ_r in Hld by assumption. lia. }
  assert (HP := pow2_pos (ln - ld)).
  set (P := pow2 (ln - ld)) in *. set (A := inject_Z (2 ^ ln)) in *.
  set (B := inject_Z (2 ^ ld)) in *. set (N := inject_Z n) in *.
  set (D := inject_Z (Zpos d)) in *.
  (* upper: N / D < 2 P ; lower: P / 2 <= N / D *)
  assert (Hup : n # d < 2 * P).
  { rewrite Hnd. apply Qlt_shift_div_r; [exact HD|].
    apply Qlt_le_trans with (2 * A); [exact HN2|].
    rewrite <- Hk.
    setoid_replace (2 * (P * B)) with (2 * P * B) by ring.
    apply Qmult_le_l; [lra | exact HD1]. }
  assert (Hlo : P <= 2 * (n # d)).
  { rewrite Hnd. setoid_replace (2 * (N / D)) with ((2 * N) / D)
      by (field; intros E; rewrite E in HD; discriminate HD).
    apply Qle_shift_div_l; [exact HD|].
    apply Qle_trans with (P * (2 * B)).
    - apply Qmult_le_l; [exact HP | lra].
    - setoid_replace (P * (2 * B)) with (2 * (P * B)) by ring. rewrite Hk. lra. }
  destruct (Qle_bool P (n # d)) eqn:E.
  - apply Qle_bool_iff in E. split; [exact E|]. rewrite pow2_succ. exact Hup.
  - assert (Hlt : n # d < P).
    { apply Qnot_le_lt. intros H. apply Qle_bool_iff in H. congruence. }
    replace (ln - ld - 1 + 1)%Z with (ln - ld)%Z by lia. split; [|exact Hlt].
    assert (E2 : P == 2 * pow2 (ln - ld - 1)).
    { unfold P. rewrite <- pow2_succ. replace (ln - ld - 1 + 1)%Z with (ln - ld)%Z by lia.
      reflexivity. }
    rewrite E2 in Hlo. lra.
Qed.



Lemma round_half_even_Z z : round_half_even (inject_Z z) = z.
Proof.
  unfold round_half_even. rewrite Qfloor_Z.
  assert (E : inject_Z z - inject_Z z == 0) by ring.
  rewrite (Qcompare_comp _ _ E (1 # 2) (1 # 2) ltac:(reflexivity)). reflexivity.
Qed.

Lemma round_half_even_floor x :
  (Qfloor x <= round_half_even x <= Qfloor x + 1)%Z.
Proof.
  unfold round_half_even.
  destruct (Qcompare _ _); [destruct (Z.even _)| |]; lia.
Qed.

Lemma round_half_even_mono x y :
  x <= y -> (round_half_even x <= round_half_even y)%Z.
Proof.
  intros Hxy. assert (Hf := Qfloor_resp_le x y Hxy).
  assert (Hx := round_half_even_floor x). assert (Hy := round_half_even_floor y).
  destruct (Z.eq_dec (Qfloor x) (Qfloor y)) as [E|E]; [|lia].
  unfold round_half_even in *. rewrite E in *.
  set (f := Qfloor y) in *.
  destruct (Qcompare_spec (x - inject_Z f) (1 # 2)) as [Ha|Ha|Ha];
    destruct (Qcompare_spec (y - inject_Z f) (1 # 2)) as [Hb|Hb|Hb];
    try lia; try (exfalso; lra); destruct (Z.even f); lia.
Qed.

(** An integer below (above) [x] stays below (above) its rounding. *)
Lemma round_half_even_ge z x : inject_Z z <= x -> (z <= round_half_even x)%Z.
Proof.
  intros H. apply Z.le_trans with (round_half_even (inject_Z z)).
  - rewrite round_half_even_Z. apply Z.le_refl.
  - apply round_half_even_mono. exact H.
Qed.

Lemma round_half_even_le z x : x <= inject_Z z -> (round_half_even x <= z)%Z.
Proof.
  intros H. apply Z.le_trans with (round_half_even (inject_Z z)).
  - apply round_half_even_mono. exact H.
  - rewrite round_half_even_Z. apply Z.le_refl.
Qed.

Lemma round64_unfold q :
  round64 q
  = let r := Qred q in
    if Qeq_bool r 0 then Fin 0
    else if Qle_bool (pow2 1024) (Qabs (rounded r))
         then (if Qle_bool 0 r then PosInf else NegInf)
         else Fin (Qred (rounded r)).
Proof. reflexivity. Qed.

Lemma Qabs_of_pos r : 0 < r -> Qabs r = r.
Proof.
  destruct r as [n d]. intros H. unfold Qabs. f_equal.
  apply Z.abs_eq. unfold Qlt in H. cbn in H. lia.
Qed.

Lemma Qdiv_pow2_le x y c : x <= y -> x / pow2 c <= y / pow2 c.
Proof.
  intros H. unfold Qdiv. apply Qmult_le_compat_r; [exact H|].
  apply Qlt_le_weak, Qinv_lt_0_compat, pow2_pos.
Qed.

(** For [r > 0] with [E = max (ilog2 r) (-1022)]: the rounded value is
    non-negative, at most [2^(E+1)], and at least [2^E] when [r] is at
    least [2^E] (the normal range). *)
Lemma rounded_bounds r :
  0 < r ->
  let E := Z.max (ilog2 r) (-1022) in
  0 <= rounded r /\ rounded r <= pow2 (E + 1) /\ (pow2 E <= r -> pow2 E <= rounded r).
Proof.
  intros Hr E. unfold rounded, quantum. rewrite (Qabs_of_pos r Hr). fold E.
  destruct (ilog2_spec r Hr) as [Hlo Hhi].
  assert (Hc := pow2_pos (E - 52)).
  assert (Hq0 : 0 <= r / pow2 (E - 52)).
  { apply Qle_shift_div_l; [exact Hc | lra]. }
  split; [|split].
  - apply Qmult_le_0_compat; [|lra].
    change 0 with (inject_Z 0). rewrite <- Zle_Qle.
    apply round_half_even_ge. exact Hq0.
  - assert (Hm : (round_half_even (r / pow2 (E - 52)) <= 2 ^ 53)%Z).
    { apply round_half_even_le. rewrite <- pow2_nonneg_exp by lia.
      apply Qle_shift_div_r; [exact Hc|]. rewrite <- pow2_add.
      replace (53 + (E - 52))%Z with (E + 1)%Z by lia.
      apply Qle_trans with (pow2 (ilog2 r + 1)); [lra|]. apply pow2_le. lia. }
    apply Qle_trans with (inject_Z (2 ^ 53) * pow2 (E - 52)).
    + apply Qmult_le_compat_r; [rewrite <- Zle_Qle; exact Hm | lra].
    + rewrite <- pow2_nonneg_exp by lia. rewrite <- pow2_add.
      replace (53 + (E - 52))%Z with (E + 1)%Z by lia. apply Qle_refl.
  - intros HE.
    assert (Hm : (2 ^ 52 <= round_half_even (r / pow2 (E - 52)))%Z).
    { apply round_half_even_ge. rewrite <- pow2_nonneg_exp by lia.
      apply Qle_shift_div_l; [exact Hc|]. rewrite <- pow2_add.
      replace (52 + (E - 52))%Z with E by lia. exact HE. }
    apply Qle_trans with (inject_Z (2 ^ 52) * pow2 (E - 52)).
    + rewrite <- pow2_nonneg_exp by lia. rewrite <- pow2_add.
      replace (52 + (E - 52))%Z with E by lia. apply Qle_refl.
    + apply Qmult_le_compat_r; [rewrite <- Zle_Qle; exact Hm | lra].
Qed.

Lemma ilog2_mono x y : 0 < x -> x <= y -> (ilog2 x <= ilog2 y)%Z.
Proof.
  intros Hx Hxy. assert (Hy : 0 < y) by lra.
  destruct (ilog2_spec x Hx) as [Hx1 _]. destruct (ilog2_spec y Hy) as [_ Hy2].
  assert (H : pow2 (ilog2 x) < pow2 (ilog2 y + 1)) by lra.
  apply Qpower_lt_compat_l_inv in H; [lia | reflexivity].
Qed.

Lemma rounded_mono x y : 0 < x -> x <= y -> rounded x <= rounded y.
Proof.
  intros Hx Hxy. assert (Hy : 0 < y) by lra.
  assert (He := ilog2_mono x y Hx Hxy).
  destruct (rounded_bounds x Hx) as (_ & Hxup & _).
  destruct (rounded_bounds y Hy) as (_ & _ & Hylo).
  cbv zeta in Hxup, Hylo.
  destruct (Z.eq_dec (Z.max (ilog2 x) (-1022)) (Z.max (ilog2 y) (-1022))) as [E|E].
  - unfold rounded, quantum. rewrite (Qabs_of_pos x Hx), (Qabs_of_pos y Hy), E.
    apply Qmult_le_compat_r; [|apply Qlt_le_weak, pow2_pos].
    rewrite <- Zle_Qle. apply round_half_even_mono. apply Qdiv_pow2_le. exact Hxy.
  - assert (Hlt : (Z.max (ilog2 x) (-1022) < Z.max (ilog2 y) (-1022))%Z) by lia.
    assert (Hmax : Z.max (ilog2 y) (-1022) = ilog2 y) by lia.
    rewrite Hmax in *.
    apply Qle_trans with (pow2 (ilog2 y)).
    + apply Qle_trans with (pow2 (Z.max (ilog2 x) (-1022) + 1)); [exact Hxup|].
      apply pow2_le. lia.
    + apply Hylo. exact (proj1 (ilog2_spec y Hy)).
Qed.

Lemma Qeq_bool_false_pos r : 0 <= r -> Qeq_bool r 0 = false -> 0 < r.
Proof.
  intros H0 E. apply Qle_lteq in H0. destruct H0 as [H|H]; [exact H|].
  symmetry in H. apply Qeq_eq_bool in H. congruence.
Qed.

(** Below [2^1023], rounding a non-negative value gives a finite
    non-negative value, and preserves the order. *)
Lemma round64_nonneg x :
  0 <= x -> x < pow2 1023 ->
  exists x', round64 x = Fin x' /\ 0 <= x' /\ x' <= pow2 1023
             /\ (Qeq_bool (Qred x) 0 = true -> x' = 0)
             /\ (Qeq_bool (Qred x) 0 = false -> x' = Qred (rounded (Qred x))).
Proof.
  intros H0 Hb. rewrite round64_unfold. cbv zeta.
  destruct (Qeq_bool (Qred x) 0) eqn:Ez.
  - exists 0. split; [reflexivity|]. split; [apply Qle_refl|].
    split; [apply Qlt_le_weak, pow2_pos|]. split; [reflexivity | discriminate].
  - assert (Hr : 0 < Qred x).
    { apply Qeq_bool_false_pos; [rewrite Qred_correct; exact H0 | exact Ez]. }
    destruct (rounded_bounds (Qred x) Hr) as (Hn & Hup & _). cbv zeta in Hup.
    assert (HE : (Z.max (ilog2 (Qred x)) (-1022) + 1 <= 1023)%Z).
    { destruct (ilog2_spec (Qred x) Hr) as [Hlo _].
      assert (H : pow2 (ilog2 (Qred x)) < pow2 1023).
      { apply Qle_lt_trans with (Qred x); [exact Hlo|]. rewrite Qred_correct. exact Hb. }
      apply Qpower_lt_compat_l_inv in H; [lia | reflexivity]. }
    assert (Hle : rounded (Qred x) <= pow2 1023).
    { apply Qle_trans with (1 := Hup). apply pow2_le. exact HE. }
    assert (Hov : Qle_bool (pow2 1024) (Qabs (rounded (Qred x))) = false).
    { destruct (Qle_bool _ _) eqn:E; [|reflexivity]. apply Qle_bool_iff in E.
      rewrite Qabs_pos in E by exact Hn.
      assert (H := pow2_lt 1023 1024 ltac:(lia)). lra. }
    rewrite Hov. eexists. split; [reflexivity|].
    split; [rewrite Qred_correct; exact Hn|].
    split; [rewrite Qred_correct; exact Hle|].
    split; [discriminate | reflexivity].
Qed.

Lemma round64_mono_nonneg x y :
  0 <= x -> x <= y -> y < pow2 1023 ->
  exists x' y', round64 x = Fin x' /\ round64 y = Fin y' /\ 0 <= x' /\ x' <= y'.
Proof.
  intros H0 Hxy Hb.
  destruct (round64_nonneg x H0 ltac:(lra)) as (x' & Hx & Hx0 & _ & Hxz & Hxp).
  destruct (round64_nonneg y ltac:(lra) Hb) as (y' & Hy & Hy0 & _ & Hyz & Hyp).
  exists x', y'. repeat split; try assumption.
  destruct (Qeq_bool (Qred x) 0) eqn:Ex.
  - rewrite (Hxz eq_refl). exact Hy0.
  - assert (Hrx : 0 < Qred x).
    { apply Qeq_bool_false_pos; [rewrite Qred_correct; exact H0 | exact Ex]. }
    destruct (Qeq_bool (Qred y) 0) eqn:Ey.
    + exfalso. apply Qeq_bool_eq in Ey. rewrite Qred_correct in Ey, Hrx. lra.
    + rewrite (Hxp eq_refl), (Hyp eq_refl).
      rewrite (Qred_correct (rounded (Qred x))), (Qred_correct (rounded (Qred y))).
      apply rounded_mono; [exact Hrx|].
      rewrite (Qred_correct x), (Qred_correct y). exact Hxy.
Qed.

Lemma round64_comp q q' : q == q' -> round64 q = round64 q'.
Proof.
  intros H. rewrite !round64_unfold. rewrite (Qred_complete _ _ H). reflexivity.
Qed.




Lemma round_half_even_error y :
  Qabs (inject_Z (round_half_even y) - y) <= 1 # 2.
Proof.
  assert (Hlo := Qfloor_le y). assert (Hhi := Qlt_floor y).
  rewrite inject_Z_plus in Hhi. change (inject_Z 1) with 1 in Hhi.
  apply Qabs_Qle_condition. unfold round_half_even.
  destruct (Qcompare_spec (y - inject_Z (Qfloor y)) (1 # 2)) as [E|E|E].
  - destruct (Z.even (Qfloor y)).
    + split; lra.
    + rewrite inject_Z_plus. change (inject_Z 1) with 1. split; lra.
  - split; lra.
  - rewrite inject_Z_plus. change (inject_Z 1) with 1. split; lra.
Qed.

(** Rounding a positive value moves it by at most half a unit of its
    last digit. *)
Lemma rounded_error r :
  0 < r -> Qabs (rounded r - r) <= pow2 (-53) * r + pow2 (-1075).
Proof.
  intros Hr. unfold rounded.
  set (c := quantum r).
  assert (Hc := pow2_pos c).
  assert (E : inject_Z (round_half_even (r / pow2 c)) * pow2 c - r
              == (inject_Z (round_half_even (r / pow2 c)) - r / pow2 c) * pow2 c).
  { field. lra. }
  rewrite E, Qabs_Qmult, (Qabs_pos (pow2 c)) by lra.
  apply Qle_trans with ((1 # 2) * pow2 c).
  { apply Qmult_le_compat_r; [apply round_half_even_error | lra]. }
  assert (Hhalf : (1 # 2) * pow2 c == pow2 (c - 1)).
  { replace (c - 1)%Z with (c + -1)%Z by lia. rewrite pow2_add.
    change (pow2 (-1)) with (1 # 2). ring. }
  rewrite Hhalf.
  destruct (ilog2_spec r Hr) as [Hlo _].
  assert (P1 := pow2_pos (-53)). assert (P2 := pow2_pos (-1075)).
  unfold c, quantum. rewrite (Qabs_of_pos r Hr).
  destruct (Z.max_spec (ilog2 r) (-1022)) as [[Hlt ->]|[Hge ->]].
  - replace (-1022 - 52 - 1)%Z with (-1075)%Z by lia.
    assert (0 <= pow2 (-53) * r) by (apply Qmult_le_0_compat; lra). lra.
  - replace (ilog2 r - 52 - 1)%Z with (-53 + ilog2 r)%Z by lia. rewrite pow2_add.
    assert (pow2 (-53) * pow2 (ilog2 r) <= pow2 (-53) * r).
    { apply Qmult_le_l; [exact P1 | exact Hlo]. }
    lra.
Qed.

(** The relative error of a rounding is at most [2^-53], up to the
    absolute error [2^-1075] of the subnormal range. *)
Lemma round64_error x :
  0 <= x -> x < pow2 1023 ->
  exists x', round64 x = Fin x'
             /\ Qabs (x' - x) <= pow2 (-53) * x + pow2 (-1075).
Proof.
  intros H0 Hb.
  destruct (round64_nonneg x H0 Hb) as (x' & Hx & _ & _ & Hz & Hp).
  exists x'. split; [exact Hx|].
  assert (P1 := pow2_pos (-53)). assert (P2 := pow2_pos (-1075)).
  destruct (Qeq_bool (Qred x) 0) eqn:E.
  - rewrite (Hz eq_refl). apply Qeq_bool_eq in E. rewrite Qred_correct in E.
    assert (0 <= pow2 (-53) * x) by (apply Qmult_le_0_compat; lra).
    apply Qabs_Qle_condition. split; lra.
  - assert (Hr : 0 < Qred x).
    { apply Qeq_bool_false_pos; [rewrite Qred_correct; exact H0 | exact E]. }
    rewrite (Hp eq_refl).
    assert (H := rounded_error (Qred x) Hr).
    assert (E1 : Qred (rounded (Qred x)) - x == rounded (Qred x) - Qred x).
    { unfold Qminus. apply Qplus_comp; [apply Qred_correct|].
      apply Qopp_comp. symmetry. apply Qred_correct. }
    assert (E2 : pow2 (-53) * Qred x + pow2 (-1075) == pow2 (-53) * x + pow2 (-1075)).
    { apply Qplus_comp; [|reflexivity].
      apply Qmult_comp; [reflexivity | apply Qred_correct]. }
    rewrite E1, <- E2. exact H.
Qed.

End Binary64.

(** ** Finite arithmetic *)

Section FiniteArithmetic.






(** The operations under a rounding [rnd] that leaves the values of
    [safe] unchanged: where the exact result is safe, it is delivered. *)
Section SafeRounding.

Variable rnd : Q -> number.
Variable safe : Q -> Prop.
Hypothesis rnd_safe : forall q, safe q -> rnd q = Fin (Qred q).
Hypothesis safe_comp : forall q q', q == q' -> safe q -> safe q'.







End SafeRounding.

End FiniteArithmetic.

(** ** Sums over an index range *)

Section IndexSums.





Lemma Qsum_upto_nonneg f n :
  (forall i, 0 <= f i) -> 0 <= Qsum_upto f n.
Proof.
  intros H. induction n as [|n IH]; simpl.
  - apply Qle_refl.
  - specialize (H n). lra.
Qed.



Lemma Qsquare_nonneg (t : Q) : 0 <= t * t.
Proof.
  destruct (Qlt_le_dec t 0) as [Hneg|Hpos].
  - setoid_replace (t * t) with ((- t) * (- t)) by ring.
    apply Qmult_le_0_compat; lra.
  - apply Qmult_le_0_compat; assumption.
Qed.



End IndexSums.

(** ** The regression slope *)

Section Trend.



(** [calculateTrend] under a rounding that leaves the values of [safe]
    unchanged, on a sequence all of whose intermediate values are safe. *)
Section UnderRounding.

Variable rnd : Q -> number.
Variable safe : Q -> Prop.
Hypothesis rnd_safe : forall q, safe q -> rnd q = Fin (Qred q).
Hypothesis safe_comp : forall q q', q == q' -> safe q -> safe q'.





End UnderRounding.










End Trend.

(** ** Linear sequences of integers *)

Section LinearSequences.









End LinearSequences.

(** ** The sentinel filter *)

Section SentinelFilter.

Lemma strict_eq_sentinel (v : number) :
  strict_eq v SENTINEL = true <-> is_sentinel v.
Proof.
  unfold is_sentinel, denotes, SENTINEL. split.
  - destruct v as [q| | |]; cbn [strict_eq]; try discriminate.
    intros H. exists q. split; [reflexivity | apply Qeq_bool_eq; exact H].
  - intros (q & -> & Hq). cbn [strict_eq]. apply Qeq_eq_bool. exact Hq.
Qed.

Lemma sentinel_filter_Purged (series : RawSeries) :
  Purged (map snd series) (sentinel_filter series).
Proof.
  unfold sentinel_filter.
  induction (map snd series) as [|v values IH]; cbn [filter].
  - constructor.
  - unfold strict_neq at 1. destruct (strict_eq v SENTINEL) eqn:E; cbn [negb].
    + apply Purged_drop; [apply strict_eq_sentinel; exact E | exact IH].
    + apply Purged_keep; [|exact IH].
      intros H. apply strict_eq_sentinel in H. congruence.
Qed.

Lemma Purged_functional values kept kept' :
  Purged values kept -> Purged values kept' -> kept = kept'.
Proof.
  intros H. revert kept'.
  induction H as [|v values kept Hs _ IH|v values kept Hs _ IH];
    intros kept' H'; inversion H'; subst; try contradiction.
  - reflexivity.
  - apply IH. assumption.
  - f_equal. apply IH. assumption.
Qed.

Lemma sentinel_filter_clean (series : RawSeries) :
  Forall (fun v => ~ is_sentinel v) (map snd series) ->
  sentinel_filter series = map snd series.
Proof.
  unfold sentinel_filter. intros H.
  induction H as [|v values Hv _ IH]; cbn [filter].
  - reflexivity.
  - unfold strict_neq at 1. destruct (strict_eq v SENTINEL) eqn:E; cbn [negb].
    + apply strict_eq_sentinel in E. contradiction.
    + f_equal. exact IH.
Qed.

End SentinelFilter.

(** ** Exceedance probabilities *)

Section Probabilities.

Lemma forallb_range (P : Z -> bool) (lo count : Z) :
  forallb P (map (fun i => (lo + Z.of_nat i)%Z) (seq 0 (Z.to_nat count))) = true ->
  forall z, (lo <= z < lo + count)%Z -> P z = true.
Proof.
  intros H z Hz. rewrite forallb_forall in H. apply H. apply in_map_iff.
  exists (Z.to_nat (z - lo)). split; [lia | apply in_seq; lia].
Qed.

Lemma of_Z_inj (j k : Z) : of_Z j = of_Z k -> j = k.
Proof. unfold of_Z, inject_Z. intros H. injection H as H. exact H. Qed.

Lemma percent_of_comp (q q' : Q) : q == q' -> percent_of q = percent_of q'.
Proof. intros H. unfold percent_of. rewrite (round64_comp q q' H). reflexivity. Qed.

Lemma round64_one : round64 1 = Fin 1.
Proof. vm_compute. reflexivity. Qed.

Lemma pow2_1023_large : 1000 < pow2 1023.
Proof.
  apply Qlt_trans with (pow2 10); [reflexivity | apply pow2_lt; lia].
Qed.

(** On shares, the percentage the code computes is monotone. *)
Lemma percent_of_mono (x y : Q) :
  0 <= x -> x <= y -> y <= 1 ->
  exists kx ky : Z,
    percent_of x = of_Z kx /\ percent_of y = of_Z ky /\ (kx <= ky)%Z.
Proof.
  intros H0 Hxy H1. assert (Hbig := pow2_1023_large).
  destruct (round64_mono_nonneg x y H0 Hxy ltac:(lra)) as (x' & y' & Hx & Hy & Hx0 & Hle).
  destruct (round64_mono_nonneg y 1 ltac:(lra) H1 ltac:(lra))
    as (y'' & one & Hy' & Hone & _ & Hle1).
  rewrite Hy in Hy'. injection Hy' as <-.
  rewrite round64_one in Hone. injection Hone as <-.
  destruct (round64_mono_nonneg (x' * 100) (y' * 100)) as (a & b & Ha & Hb & Ha0 & Hab);
    [nra | nra | nra |].
  exists (Qfloor (a + (1 # 2))), (Qfloor (b + (1 # 2))).
  unfold percent_of. rewrite Hx, Hy. unfold nmul. cbn [mul_with].
  rewrite Ha, Hb. cbn [Math_round].
  split; [reflexivity|]. split; [reflexivity|].
  apply Qfloor_resp_le. lra.
Qed.

(** On a whole number of hundredths the percentage is that number. *)
Lemma percent_of_hundredth (j : Z) :
  (0 <= j <= 100)%Z -> percent_of (j # 100) = of_Z j.
Proof.
  intros Hj.
  assert (H : (match percent_of (j # 100) with
               | Fin q => Qeq_bool q (inject_Z j) && Qeq_bool (Qred q) q && (Zpos (Qden q) =? 1)%Z
               | _ => false
               end) = true).
  { apply (forallb_range
             (fun j => match percent_of (j # 100) with
                       | Fin q => Qeq_bool q (inject_Z j) && Qeq_bool (Qred q) q
                                  && (Zpos (Qden q) =? 1)%Z
                       | _ => false
                       end) 0 101); [vm_compute; reflexivity | lia]. }
  destruct (percent_of (j # 100)) as [[n d]| | |]; try discriminate H.
  apply andb_prop in H. destruct H as [H Hd]. apply andb_prop in H. destruct H as [H _].
  apply Qeq_bool_eq in H. apply Z.eqb_eq in Hd. cbn [Qden] in Hd.
  injection Hd as ->. unfold of_Z, inject_Z. f_equal. f_equal.
  unfold Qeq in H. cbn in H. lia.
Qed.

Lemma share_le (c t c' t' : nat) :
  (0 < t)%nat -> (0 < t')%nat -> (c * t' <= c' * t)%nat -> share c t <= share c' t'.
Proof.
  intros Ht Ht' H. unfold share, Qle. cbn [Qnum Qden].
  rewrite !Z2Pos.id by lia. nia.
Qed.

Lemma share_range (c t : nat) : (0 < t)%nat -> (c <= t)%nat -> 0 <= share c t <= 1.
Proof.
  intros Ht Hc. unfold share, Qle. cbn [Qnum Qden]. rewrite !Z2Pos.id by lia. lia.
Qed.

Lemma share_quotient (c t : nat) :
  (0 < t)%nat -> inject_Z (Z.of_nat c) / inject_Z (Z.of_nat t) == share c t.
Proof.
  intros Ht. unfold share. rewrite (Qmake_Qdiv (Z.of_nat c)), Z2Pos.id by lia.
  reflexivity.
Qed.

(** The probability of the code, through the share it rounds. *)
Lemma probability_share (p : number -> bool) (values : list number) :
  (0 < List.length values)%nat ->
  probability p values
  = percent_of (share (List.length (filter p values)) (List.length values)).
Proof.
  intros Hlen. unfold probability, percent_of, len, of_nat, of_Z, ndiv.
  destruct (Nat.ltb_spec 0 (List.length values)) as [_|H]; [|lia].
  cbn [div_with].
  destruct (Qeq_bool (inject_Z (Z.of_nat (List.length values))) 0) eqn:E.
  - apply Qeq_bool_eq in E. unfold Qeq in E. cbn in E. lia.
  - rewrite (round64_comp _ _ (share_quotient _ _ Hlen)). reflexivity.
Qed.

(** The percentage of a share is within less than 1 of the exact one. *)
Lemma percent_of_share (c t : nat) :
  (0 < t)%nat -> (c <= t)%nat ->
  exists k : Z,
    percent_of (share c t) = of_Z k
    /\ (Z.abs (k * Z.of_nat t - 100 * Z.of_nat c) < Z.of_nat t)%Z
    /\ (0 <= k <= 100)%Z.
Proof.
  intros Ht Hc.
  set (C := Z.of_nat c). set (T := Z.of_nat t).
  assert (HT : (0 < T)%Z) by (unfold T; lia).
  assert (HC : (0 <= C <= T)%Z) by (unfold C, T; lia).
  set (j := (100 * C / T)%Z).
  assert (Hj := Z.div_mod (100 * C) T ltac:(lia)). fold j in Hj.
  assert (Hr := Z.mod_pos_bound (100 * C) T HT).
  assert (Hj0 : (0 <= j)%Z) by (unfold j; apply Z.div_pos; lia).
  assert (Hj100 : (j <= 100)%Z).
  { unfold j. apply Z.div_le_upper_bound; [exact HT | lia]. }
  destruct (Z.eq_dec ((100 * C) mod T) 0) as [Hex|Hnex].
  - exists j. split; [|split; [|lia]].
    + rewrite <- (percent_of_hundredth j) by lia. apply percent_of_comp.
      unfold share, Qeq. cbn [Qnum Qden]. rewrite Z2Pos.id by (fold T; lia).
      fold C T. change (Zpos 100) with 100%Z. lia.
    + fold C T. replace (j * T - 100 * C)%Z with 0%Z by lia. cbn. exact HT.
  - assert (Hj99 : (j <= 99)%Z).
    { destruct (Z.eq_dec j 100) as [E|E]; [|lia]. exfalso. rewrite E in Hj. lia. }
    destruct (share_range c t Ht Hc) as [Hs0 Hs1].
    assert (Hlo : j # 100 <= share c t).
    { unfold share, Qle. cbn [Qnum Qden]. rewrite Z2Pos.id by (fold T; lia).
      fold C T. change (Zpos 100) with 100%Z. lia. }
    assert (Hhi : share c t <= (j + 1) # 100).
    { unfold share, Qle. cbn [Qnum Qden]. rewrite Z2Pos.id by (fold T; lia).
      fold C T. change (Zpos 100) with 100%Z. lia. }
    destruct (percent_of_mono (j # 100) (share c t)) as (k0 & k & Hk0 & Hk & Hle);
      [unfold Qle; cbn; lia | exact Hlo | exact Hs1 |].
    destruct (percent_of_mono (share c t) ((j + 1) # 100)) as (k' & k1 & Hk' & Hk1 & Hle');
      [exact Hs0 | exact Hhi | unfold Qle; cbn; lia |].
    rewrite percent_of_hundredth in Hk0 by lia. apply of_Z_inj in Hk0.
    rewrite percent_of_hundredth in Hk1 by lia. apply of_Z_inj in Hk1.
    rewrite Hk in Hk'. apply of_Z_inj in Hk'.
    exists k. split; [exact Hk|]. fold C T. split; [|lia].
    assert (Hk01 : (k = j \/ k = j + 1)%Z) by lia.
    destruct Hk01 as [-> | ->]; lia.
Qed.

(** The percentage of a share is within [1/2 + 401 * 2^-53] of the exact
    one: the two roundings of the quotient and of the product, then
    [Math.round]. *)
Lemma percent_of_error (x : Q) :
  0 <= x -> x <= 1 ->
  exists k : Z,
    percent_of x = of_Z k
    /\ Qabs (inject_Z k - 100 * x) <= (1 # 2) + (401 # 9007199254740992).
Proof.
  intros H0 H1. assert (Hbig := pow2_1023_large).
  assert (E53 : pow2 (-53) == 1 # 9007199254740992) by reflexivity.
  assert (Hsub : pow2 (-1075) <= 1 # 9007199254740992).
  { rewrite <- E53. apply pow2_le. lia. }
  assert (Hsub0 := pow2_pos (-1075)).
  destruct (round64_error x H0 ltac:(lra)) as (v1 & Hv1 & Ev1).
  destruct (round64_nonneg x H0 ltac:(lra)) as (v1' & Hv1' & Hv10 & _).
  rewrite Hv1 in Hv1'. injection Hv1' as <-.
  assert (forall v : Q, 0 <= v -> v < pow2 1023 ->
            exists v', round64 v = Fin v'
                       /\ Qabs (v' - v) <= pow2 (-53) * v + pow2 (-1075)) as Herror
    by exact round64_error.
  remember (pow2 (-1075)) as delta eqn:Hdelta. clear Hdelta.
  rewrite E53 in Ev1. apply Qabs_Qle_condition in Ev1. destruct Ev1 as [Ea Eb].
  assert (Hv12 : v1 <= 2).
  { lra. }
  destruct (Herror (v1 * 100)) as (v2 & Hv2 & Ev2); [lra | lra |].
  rewrite E53 in Ev2. apply Qabs_Qle_condition in Ev2. destruct Ev2 as [Ec Ed].
  exists (Qfloor (v2 + (1 # 2))).
  unfold percent_of. rewrite Hv1. unfold nmul. cbn [mul_with]. rewrite Hv2.
  cbn [Math_round]. split; [reflexivity|].
  assert (Hf1 := Qfloor_le (v2 + (1 # 2))). assert (Hf2 := Qlt_floor (v2 + (1 # 2))).
  rewrite inject_Z_plus in Hf2. change (inject_Z 1) with 1 in Hf2.
  apply Qabs_Qle_condition. split; lra.
Qed.

(** For fewer than [2^32] values, the percentage of a share is a nearest
    integer of the exact one. *)
Lemma percent_of_nearest (c t : nat) (k : Z) :
  (0 < t)%nat -> (c <= t)%nat -> (Z.of_nat t < 2 ^ 32)%Z ->
  percent_of (share c t) = of_Z k ->
  (2 * Z.abs (k * Z.of_nat t - 100 * Z.of_nat c) <= Z.of_nat t)%Z.
Proof.
  intros Ht Hc Hsmall Hk.
  destruct (share_range c t Ht Hc) as [Hs0 Hs1].
  destruct (percent_of_error (share c t) Hs0 Hs1) as (k' & Hk' & Herr).
  rewrite Hk in Hk'. apply of_Z_inj in Hk'. subst k'.
  set (C := Z.of_nat c) in *. set (T := Z.of_nat t) in *.
  assert (HT : (0 < T)%Z) by (unfold T; lia).
  assert (Hshare : share c t == inject_Z C / inject_Z T).
  { symmetry. apply share_quotient. exact Ht. }
  assert (HTq : 0 < inject_Z T).
  { change 0 with (inject_Z 0). rewrite <- Zlt_Qlt. exact HT. }
  apply Qabs_Qle_condition in Herr. destruct Herr as [Ha Hb].
  rewrite Hshare in Ha, Hb.
  assert (Hlo : - ((1 # 2) + (401 # 9007199254740992)) * inject_Z T
                <= inject_Z (k * T - 100 * C)).
  { unfold Z.sub. rewrite inject_Z_plus, inject_Z_opp, !inject_Z_mult.
    change (inject_Z 100) with 100.
    setoid_replace (inject_Z k * inject_Z T + - (100 * inject_Z C))
      with ((inject_Z k - 100 * (inject_Z C / inject_Z T)) * inject_Z T)
      by (field; lra).
    apply Qmult_le_compat_r; lra. }
  assert (Hhi : inject_Z (k * T - 100 * C)
                <= ((1 # 2) + (401 # 9007199254740992)) * inject_Z T).
  { unfold Z.sub. rewrite inject_Z_plus, inject_Z_opp, !inject_Z_mult.
    change (inject_Z 100) with 100.
    setoid_replace (inject_Z k * inject_Z T + - (100 * inject_Z C))
      with ((inject_Z k - 100 * (inject_Z C / inject_Z T)) * inject_Z T)
      by (field; lra).
    apply Qmult_le_compat_r; lra. }
  set (D := (k * T - 100 * C)%Z) in *.
  clearbody D.
  assert (Hlo' : (-9007199254741794 * T <= 18014398509481984 * D)%Z).
  { rewrite Zle_Qle, !inject_Z_mult.
    change (inject_Z (-9007199254741794)) with (-9007199254741794 # 1).
    change (inject_Z 18014398509481984) with (18014398509481984 # 1). lra. }
  assert (Hhi' : (18014398509481984 * D <= 9007199254741794 * T)%Z).
  { rewrite Zle_Qle, !inject_Z_mult.
    change (inject_Z 9007199254741794) with (9007199254741794 # 1).
    change (inject_Z 18014398509481984) with (18014398509481984 # 1). lra. }
  change (2 ^ 32)%Z with 4294967296%Z in Hsmall. lia.
Qed.

(** A probability of the code is an integer percentage of its sample. *)
Lemma probability_is_percentage (p : number -> bool) (values : list number) :
  exists k : Z,
    probability p values = of_Z k
    /\ is_percentage (List.length (filter p values)) (List.length values) k
    /\ (0 <= k <= 100)%Z.
Proof.
  unfold is_percentage.
  destruct (Nat.eqb_spec (List.length values) 0) as [E|E].
  - exists 0%Z. unfold probability. rewrite E. cbn [Nat.ltb Nat.leb].
    split; [reflexivity|]. split; [reflexivity | lia].
  - rewrite probability_share by lia.
    destruct (percent_of_share (List.length (filter p values)) (List.length values))
      as (k & Hk & Hnear & Hrange); [lia | apply filter_length_le |].
    exists k. split; [exact Hk|]. split; [|exact Hrange].
    split; [exact Hnear|]. intros Hsmall.
    apply percent_of_nearest; [lia | apply filter_length_le | exact Hsmall | exact Hk].
Qed.

End Probabilities.

(** ** Promises and pooling *)

Section Promises.

Lemma first_rejection_sound {A} (ps : list (nat * Settled A)) t m :
  first_rejection ps = Some (t, m) -> In (t, Rejected m) ps.
Proof.
  revert t m. induction ps as [|[t0 [v|m0]] ps IH]; intros t m; cbn [first_rejection].
  - discriminate.
  - intros H. right. exact (IH _ _ H).
  - destruct (first_rejection ps) as [[t1 m1]|].
    + destruct (t1 <? t0)%nat; intros H; injection H as <- <-.
      * right. exact (IH _ _ eq_refl).
      * left. reflexivity.
    + intros H; injection H as <- <-. left. reflexivity.
Qed.

Lemma first_rejection_complete {A} (ps : list (nat * Settled A)) t m :
  In (t, Rejected m) ps -> first_rejection ps <> None.
Proof.
  induction ps as [|[t0 [v|m0]] ps IH]; intros Hin; cbn [first_rejection].
  - contradiction.
  - destruct Hin as [Heq|Hin]; [discriminate | exact (IH Hin)].
  - destruct (first_rejection ps) as [[t1 m1]|]; [destruct (t1 <? t0)%nat|];
      discriminate.
Qed.

Lemma first_rejection_In {A} (ps : list (nat * Settled A)) t m :
  In (t, Rejected m) ps ->
  exists t' m', first_rejection ps = Some (t', m') /\ In (t', Rejected m') ps.
Proof.
  intros Hin. destruct (first_rejection ps) as [[t' m']|] eqn:E.
  - exists t', m'. split; [reflexivity | exact (first_rejection_sound _ _ _ E)].
  - exfalso. exact (first_rejection_complete _ _ _ Hin E).
Qed.

(** [Promise.all] rejects as soon as one promise is rejected, with the
    reason of one of the rejected promises. *)
Lemma Promise_all_rejects {A} (ps : list (nat * Settled A)) t m :
  In (t, Rejected m) ps ->
  exists t' m', Promise_all ps = Rejected m' /\ In (t', Rejected m') ps.
Proof.
  intros Hin. destruct (first_rejection_In ps t m Hin) as (t' & m' & H & Hin').
  exists t', m'. unfold Promise_all. rewrite H. split; [reflexivity | exact Hin'].
Qed.

Lemma Promise_all_fulfilled {A} (ps : list (nat * Settled A)) (P : A -> Prop) :
  Forall (fun p => exists v, snd p = Fulfilled v /\ P v) ps ->
  exists vs, Promise_all ps = Fulfilled vs /\ Forall P vs.
Proof.
  intros H.
  assert (Hboth : first_rejection ps = None /\ Forall P (fulfilled_values ps)).
  { induction H as [|[t s] rest (v & Hv & HP) _ [IH1 IH2]];
      cbn [first_rejection fulfilled_values snd] in *.
    - split; [reflexivity | constructor].
    - subst s. split; [exact IH1 | constructor; assumption]. }
  destruct Hboth as [Hnone Hvs]. unfold Promise_all. rewrite Hnone.
  eexists. split; [reflexivity | exact Hvs].
Qed.

Lemma combine_seq_nth_error {A} (l : list A) (s i : nat) (q : A) :
  nth_error l i = Some q ->
  nth_error (combine (seq s (List.length l)) l) i = Some ((s + i)%nat, q).
Proof.
  revert s i. induction l as [|a l IH]; intros s [|i] H; try discriminate.
  - cbn in *. injection H as ->. rewrite Nat.add_0_r. reflexivity.
  - cbn [List.length seq combine nth_error] in *.
    rewrite (IH (S s) i H). f_equal. f_equal. lia.
Qed.

Lemma pool_no_usable_value (regionalData : list (option NasaData)) :
  Forall (fun od => exists d, od = Some d /\ no_usable_value d) regionalData ->
  pool regionalData no_samples = Fulfilled no_samples.
Proof.
  induction 1 as [|od rest (d & -> & Ht & Hp & Hw) _ IH]; cbn [pool].
  - reflexivity.
  - rewrite Ht, Hp, Hw. exact IH.
Qed.

(** Pooling concatenates, in grid order, the cleaned series of the
    replies; the date keys play no part. *)
Lemma pool_concatenates (ds : list NasaData) (acc : Pooled) :
  pool (map Some ds) acc
  = Fulfilled
      {| allTempValues :=
           allTempValues acc
           ++ flat_map (fun d => sentinel_filter (series_of T2M d)) ds;
         allPrecipValues :=
           allPrecipValues acc
           ++ flat_map (fun d => sentinel_filter (series_of PRECTOTCORR d)) ds;
         allWindValues :=
           allWindValues acc
           ++ flat_map (fun d => sentinel_filter (series_of WS10M d)) ds |}.
Proof.
  revert acc. induction ds as [|d ds IH]; intros acc; cbn [map pool flat_map].
  - rewrite !app_nil_r. destruct acc. reflexivity.
  - rewrite IH. cbn [allTempValues allPrecipValues allWindValues].
    rewrite <- !app_assoc. reflexivity.
Qed.

Lemma pool_rejects (regionalData : list (option NasaData)) (acc : Pooled) reason :
  pool regionalData acc = Rejected reason ->
  reason = "Cannot read properties of null (reading 'properties')"%string.
Proof.
  revert acc. induction regionalData as [|[d|] rest IH]; intros acc; cbn [pool];
    intros H.
  - discriminate H.
  - exact (IH _ H).
  - injection H as <-. reflexivity.
Qed.

(** The pooled values of a series do not depend on its date keys. *)
Lemma sentinel_filter_ignores_keys (series : RawSeries) :
  sentinel_filter series
  = sentinel_filter (map (fun kv => (EmptyString, snd kv)) series).
Proof. unfold sentinel_filter. rewrite map_map. reflexivity. Qed.

End Promises.

(** ** The handler, request by request *)

Section Handler.

Variable env : Env.

(** The handler on a request that is not a preflight and whose body
    could be read. *)
Lemma serve_fields (m : string) (lat lon date : jsval)
    (variables : option (list string)) :
  String.eqb m "OPTIONS" = false ->
  serve env {| method := m; body := BodyFields lat lon date variables |}
  = (grid_requests env lat lon date,
     match Promise_all (promises_of env (grid_requests env lat lon date)) with
     | Rejected message => Err500 message
     | Fulfilled regionalData =>
         match pool regionalData no_samples with
         | Rejected message => Err500 message
         | Fulfilled pooled => Ok200 (assemble 5 pooled)
         end
     end).
Proof.
  intros Hm. unfold serve. cbn [method body]. rewrite Hm.
  unfold predict, grid_requests, promises_of.
  destruct (window env date) as [startDate endDate].
  cbn [fst snd gridPoints fan_out map combine seq List.length].
  unfold settle, request_of. cbn [latitude longitude start end_ parameters].
  destruct (Promise_all _) as [regionalData|message]; [|reflexivity].
  unfold no_samples. destruct (pool regionalData _); reflexivity.
Qed.

(** A body whose object-valued fields all convert is handled as the body
    of the primitives they convert to. *)
Lemma serve_objects (m : string) (lat lon date : jsval)
    (variables : option (list string)) :
  serve env {| method := m;
               body := BodyObjects (Some lat) (Some lon) (Some date) variables |}
  = serve env {| method := m; body := BodyFields lat lon date variables |}.
Proof. reflexivity. Qed.

(** A field that cannot be converted stops the handler before any
    fetch. *)
Lemma serve_unconvertible (m : string) (b : RequestBody) :
  String.eqb m "OPTIONS" = false -> unconvertible b = true ->
  serve env {| method := m; body := b |} = ([], Err500 NOT_PRIMITIVE).
Proof.
  intros Hm Hb. unfold serve. cbn [method body]. rewrite Hm.
  destruct b as [message|lat lon date variables|[lat|] [lon|] [date|] variables];
    try discriminate Hb; reflexivity.
Qed.

Lemma promises_of_nth_error requests i q :
  nth_error requests i = Some q ->
  nth_error (promises_of env requests) i = Some (settles_at env i, settle env i q).
Proof.
  intros H. unfold promises_of.
  rewrite nth_error_map, (combine_seq_nth_error _ 0 i q H). reflexivity.
Qed.

Lemma promises_of_In requests t m :
  In (t, Rejected m) (promises_of env requests) ->
  exists i q, nth_error requests i = Some q /\ settle env i q = Rejected m.
Proof.
  intros Hin. apply In_nth_error in Hin. destruct Hin as [i Hi].
  unfold promises_of in Hi. rewrite nth_error_map in Hi.
  destruct (nth_error (combine _ _) i) as [[j q]|] eqn:E; [|discriminate].
  cbn in Hi. injection Hi as _ Hs.
  assert (Hq : nth_error requests i = Some q).
  { revert E. generalize 0%nat. revert i.
    induction requests as [|a l IH]; intros [|i] s E; cbn in *; try discriminate.
    - injection E as _ ->. reflexivity.
    - exact (IH _ _ E). }
  exists i, q. split; [exact Hq|].
  rewrite (combine_seq_nth_error _ 0 i q Hq) in E. injection E as <-. exact Hs.
Qed.

(** A reply with a non-success status rejects the promise of its fetch. *)
Lemma settle_not_ok i q status payload :
  upstream env i q = HttpReply status payload ->
  response_ok status = false ->
  settle env i q = Rejected ("NASA API error: " ++ Z_toString status).
Proof.
  intros Hup Hok. destruct q as [la lo s e ps]. unfold settle, fetchLocationData.
  cbn [latitude longitude start end_ parameters snd]. rewrite Hup, Hok. reflexivity.
Qed.

Lemma settle_ok i q status d :
  upstream env i q = HttpReply status (Json d) ->
  response_ok status = true ->
  settle env i q = Fulfilled (Some d).
Proof.
  intros Hup Hok. destruct q as [la lo s e ps]. unfold settle, fetchLocationData.
  cbn [latitude longitude start end_ parameters snd]. rewrite Hup, Hok. reflexivity.
Qed.

Lemma promises_of_Forall requests (P : nat * Settled (option NasaData) -> Prop) :
  (forall i q, nth_error requests i = Some q -> P (settles_at env i, settle env i q)) ->
  Forall P (promises_of env requests).
Proof.
  intros H. apply Forall_forall. intros p Hin.
  apply In_nth_error in Hin. destruct Hin as [i Hi].
  destruct (nth_error requests i) as [q|] eqn:Hq.
  - rewrite (promises_of_nth_error _ _ _ Hq) in Hi. injection Hi as <-.
    exact (H _ _ Hq).
  - exfalso. apply nth_error_None in Hq.
    assert (Hlen : List.length (promises_of env requests) = List.length requests).
    { unfold promises_of. rewrite length_map, length_combine, length_seq. lia. }
    assert (Hsome : nth_error (promises_of env requests) i <> None) by congruence.
    apply nth_error_Some in Hsome. lia.
Qed.

Lemma serve_Ok200_inv (req : Request) issued r :
  serve env req = (issued, Ok200 r) ->
  exists regionalData pooled,
    pool regionalData no_samples = Fulfilled pooled /\ r = assemble 5 pooled.
Proof.
  assert (Hfields : forall m lat lon date variables,
             String.eqb m "OPTIONS" = false ->
             serve env {| method := m; body := BodyFields lat lon date variables |}
             = (issued, Ok200 r) ->
             exists regionalData pooled,
               pool regionalData no_samples = Fulfilled pooled /\ r = assemble 5 pooled).
  { intros m lat lon date variables Hm. rewrite serve_fields by exact Hm.
    destruct (Promise_all _) as [regionalData|message]; [|discriminate].
    destruct (pool regionalData no_samples) as [pooled|message] eqn:Hpool;
      [|discriminate].
    intros H. injection H as _ <-. exists regionalData, pooled.
    split; [exact Hpool | reflexivity]. }
  destruct req as [m b]. destruct (String.eqb m "OPTIONS") eqn:Hm.
  - unfold serve. cbn [method body]. rewrite Hm. discriminate.
  - destruct b as [message|lat lon date variables|lat lon date variables].
    + unfold serve. cbn [method body]. rewrite Hm. discriminate.
    + apply Hfields. exact Hm.
    + destruct (unconvertible (BodyObjects lat lon date variables)) eqn:Hb.
      * rewrite (serve_unconvertible _ _ Hm Hb). discriminate.
      * destruct lat as [lat|], lon as [lon|], date as [date|]; try discriminate Hb.
        rewrite serve_objects. apply Hfields. exact Hm.
Qed.

Lemma serve_Err500_inv (m : string) (lat lon date : jsval)
    (variables : option (list string)) (message : string) :
  String.eqb m "OPTIONS" = false ->
  snd (serve env {| method := m; body := BodyFields lat lon date variables |})
  = Err500 message ->
  (exists j qj, nth_error (grid_requests env lat lon date) j = Some qj
                /\ settle env j qj = Rejected message)
  \/ message = "Cannot read properties of null (reading 'properties')"%string.
Proof.
  intros Hm. rewrite serve_fields by exact Hm. cbn [snd].
  destruct (Promise_all _) as [regionalData|reason] eqn:Hall.
  - destruct (pool regionalData no_samples) as [pooled|reason] eqn:Hpool;
      [discriminate|].
    intros H. injection H as <-. right. exact (pool_rejects _ _ _ Hpool).
  - intros H. injection H as <-. left.
    unfold Promise_all in Hall.
    destruct (first_rejection _) as [[t reason']|] eqn:Hfirst; [|discriminate].
    injection Hall as ->.
    exact (promises_of_In _ _ _ (first_rejection_sound _ _ _ Hfirst)).
Qed.

(** For a valid date the window runs from the target day fifteen years
    back to the target day of last year. *)
Lemma window_of_valid_date (date : jsval) (y m0 d : Z) :
  Date_ctor env date = ValidDate y m0 d ->
  window env date
  = (yyyymmdd (currentYear env - 15) (Some (1 + m0)%Z) (Some d),
     yyyymmdd (currentYear env - 1) (Some (1 + m0)%Z) (Some d)).
Proof. intros H. unfold window. rewrite H. reflexivity. Qed.

End Handler.

(* ================================================================== *)
(** * The claims *)

(** C1: for a query on 15 June made in 2025, the handler asks every grid
    point for the whole range from 20100615 to 20240615 in one request,
    and pools every value of the reply: three consecutive days in a
    reply, of which one is a 15 June, give 15 data points over the five
    grid points and an average over all three days. *)
Theorem C1_window_is_a_date_range :
  let out := serve Scenario.daily_archive (Scenario.new_york None) in
  let series := [("20100615"%string, Fin 20); ("20100616"%string, Fin 26);
                 ("20100617"%string, Fin 32)] in
  map (fun q => (start q, end_ q)) (fst out)
  = repeat ("20100615"%string, "20240615"%string) 5
  /\ List.length (filter (fun kv => on_calendar_day "0615" (fst kv)) series) = 1%nat
  /\ (forall i q, upstream Scenario.daily_archive i q
                  = if (String.eqb (start q) "20100615"
                        && String.eqb (end_ q) "20240615")%bool
                    then Scenario.reply_with series [] []
                    else HttpReply 422 JsonNull)
  /\ exists r, snd out = Ok200 r
               /\ data_points r = Fin 15
               /\ average_temp r = Fin 26.
Proof.
  repeat split.
  eexists. split; [vm_compute; reflexivity|]. split; reflexivity.
Qed.

(** C2, refuted: a body without [lat] and without [date] is not turned
    down before the fan-out.  The five fetches are issued, with
    [undefined] and [NaN] as latitudes and [NaN] for month and day, and
    the response is the one an upstream failure gives. *)
Lemma C2_malformed_input_is_fetched :
  let env := Scenario.strict_archive in
  let req := Scenario.missing_lat_and_date in
  malformed env req = true
  /\ ~ rejected_before_fetch env req
  /\ map latitude (fst (serve env req))
     = [JUndefined; JNum NaN; JNum NaN; JUndefined; JUndefined]
  /\ map start (fst (serve env req)) = repeat "2010NaNNaN"%string 5
  /\ snd (serve env req) = Err500 "NASA API error: 422".
Proof.
  cbv zeta. split; [reflexivity|]. split.
  - intros [Hnone _]. vm_compute in Hnone. discriminate Hnone.
  - repeat split; vm_compute; reflexivity.
Qed.

(** C2, amended: the handler validates none of [lat], [lon], [date].
    For a request that is not a preflight:
    - when the three fields are primitive values (missing, [null], a
      boolean, a number, a string), whatever they are, the five
      grid-point fetches are issued; if the response is an error, it has
      status 500 and its message is the rejection reason of one of these
      fetches or the [TypeError] of a [null] payload;
    - a field that is an object or an array is handled as the primitive
      it converts to;
    - the request is answered before any fetch exactly when its body
      cannot be read or when one of the three fields is an object that
      cannot be converted to a primitive; the answer is then the same
      status 500 with the message of the exception. *)
Theorem C2_no_input_validation (env : Env) (m : string) :
  String.eqb m "OPTIONS" = false ->
  (forall lat lon date variables,
     let out := serve env {| method := m; body := BodyFields lat lon date variables |} in
     fst out = grid_requests env lat lon date
     /\ List.length (fst out) = 5%nat
     /\ (forall message,
           snd out = Err500 message ->
           status_of (snd out) = 500%Z
           /\ ((exists j qj, nth_error (fst out) j = Some qj
                             /\ settle env j qj = Rejected message)
               \/ message
                  = "Cannot read properties of null (reading 'properties')"%string)))
  /\ (forall lat lon date variables,
        serve env {| method := m;
                     body := BodyObjects (Some lat) (Some lon) (Some date) variables |}
        = serve env {| method := m; body := BodyFields lat lon date variables |})
  /\ (forall b,
        unconvertible b = true ->
        serve env {| method := m; body := b |}
        = ([], Err500 "Cannot convert object to primitive value")
        /\ status_of (snd (serve env {| method := m; body := b |})) = 500%Z)
  /\ (forall message,
        serve env {| method := m; body := BodyThrows message |}
        = ([], Err500 message))
  /\ (forall b,
        rejected_before_fetch env {| method := m; body := b |}
        <-> unreadable b = true \/ unconvertible b = true).
Proof.
  intros Hm.
  assert (Hfields : forall lat lon date variables,
             fst (serve env {| method := m; body := BodyFields lat lon date variables |})
             = grid_requests env lat lon date).
  { intros. rewrite serve_fields by exact Hm. reflexivity. }
  assert (Hthrows : forall message,
             serve env {| method := m; body := BodyThrows message |}
             = ([], Err500 message)).
  { intros message. unfold serve. cbn [method body]. rewrite Hm. reflexivity. }
  split; [|split; [|split; [|split]]].
  - intros lat lon date variables out.
    split; [apply Hfields|]. split; [unfold out; rewrite Hfields; reflexivity|].
    intros message Herr. split; [rewrite Herr; reflexivity|].
    unfold out. rewrite Hfields. exact (serve_Err500_inv _ _ _ _ _ _ _ Hm Herr).
  - intros lat lon date variables. apply serve_objects.
  - intros b Hb. rewrite (serve_unconvertible env m b Hm Hb). split; reflexivity.
  - exact Hthrows.
  - intros b. unfold rejected_before_fetch. split.
    + intros [Hnone _].
      destruct b as [message|lat lon date variables|[lat|] [lon|] [date|] variables];
        try (left; reflexivity); try (right; reflexivity); exfalso.
      * rewrite Hfields in Hnone. discriminate Hnone.
      * rewrite serve_objects, Hfields in Hnone. discriminate Hnone.
    + intros [Hb|Hb].
      * destruct b as [message| |]; try discriminate Hb.
        rewrite Hthrows. split; [reflexivity | eexists; reflexivity].
      * rewrite (serve_unconvertible env m b Hm Hb).
        split; [reflexivity | eexists; reflexivity].
Qed.

(** C2, witnessed: the body without [lat] and [date] has its five
    fetches issued; a body whose [lat] is an object with an own
    [toString] property, and a body that is not JSON, are answered
    before any fetch. *)
Lemma C2_no_input_validation_witness :
  let env := Scenario.strict_archive in
  (fst (serve env Scenario.missing_lat_and_date)
   = grid_requests env JUndefined (JNum Scenario.new_york_lon) JUndefined
   /\ List.length (fst (serve env Scenario.missing_lat_and_date)) = 5%nat)
  /\ serve env {| method := "POST";
                  body := BodyObjects None (Some (JNum Scenario.new_york_lon))
                                      (Some (JStr Scenario.iso_june15)) None |}
     = ([], Err500 "Cannot convert object to primitive value")
  /\ rejected_before_fetch env
       {| method := "POST"; body := BodyThrows "Unexpected end of JSON input" |}.
Proof.
  destruct (C2_no_input_validation Scenario.strict_archive "POST" eq_refl)
    as (Hfields & _ & Hobject & _ & Hbefore).
  cbv zeta. split; [|split].
  - destruct (Hfields JUndefined (JNum Scenario.new_york_lon) JUndefined None)
      as (Hfst & Hlen & _).
    split; [exact Hfst | exact Hlen].
  - apply Hobject. reflexivity.
  - apply Hbefore. left. reflexivity.
Defined.

(** C3: on an empty pooled temperature sample the margin of error is
    [1.96 * (0 / Math.sqrt(0))], that is [NaN], and both bounds of
    temp_confidence_range are [NaN]: the division is not guarded. *)
Theorem C3_empty_sample_confidence_is_NaN :
  margin_of_error [] (calculateStdDev [] (average [] (Fin 20))) = NaN
  /\ (forall gridCount precip wind,
        temp_confidence_range
          (assemble gridCount {| allTempValues := []; allPrecipValues := precip;
                                 allWindValues := wind |})
        = {| lower := NaN; upper := NaN |})
  /\ exists r,
       snd (serve Scenario.all_missing (Scenario.new_york None)) = Ok200 r
       /\ data_points r = Fin 0
       /\ temp_confidence_range r = {| lower := NaN; upper := NaN |}.
Proof.
  split; [reflexivity|]. split; [reflexivity|].
  eexists. split; [vm_compute; reflexivity|]. split; reflexivity.
Qed.

(** Four equal temperatures: the interval is [20, 20]. *)
Example confidence_of_constant_sample :
  temp_confidence_range
    (assemble 5 {| allTempValues := [Fin 20; Fin 20; Fin 20; Fin 20];
                   allPrecipValues := []; allWindValues := [] |})
  = {| lower := Fin 20; upper := Fin 20 |}.
Proof. vm_compute. reflexivity. Qed.

(** C4: when a grid-point fetch gets a reply with a non-success status,
    the handler answers with status 500 and a body [{error: message}],
    never with a prediction, whatever the other four fetches returned;
    the message is the rejection reason of one of the fetches. *)
Theorem C4_all_or_nothing (env : Env) (m : string) (lat lon date : jsval)
    (variables : option (list string)) (i : nat) (q : FetchRequest)
    (status : Z) (payload : Payload) :
  String.eqb m "OPTIONS" = false ->
  nth_error (grid_requests env lat lon date) i = Some q ->
  upstream env i q = HttpReply status payload ->
  response_ok status = false ->
  exists message,
    snd (serve env {| method := m; body := BodyFields lat lon date variables |})
    = Err500 message
    /\ status_of (Err500 message) = 500%Z
    /\ exists j qj, nth_error (grid_requests env lat lon date) j = Some qj
                    /\ settle env j qj = Rejected message.
Proof.
  intros Hm Hq Hup Hok. rewrite serve_fields by exact Hm. cbn [snd].
  assert (Hin : In (settles_at env i,
                    Rejected ("NASA API error: " ++ Z_toString status))
                   (promises_of env (grid_requests env lat lon date))).
  { apply nth_error_In with i. rewrite (promises_of_nth_error _ _ _ _ Hq).
    rewrite (settle_not_ok _ _ _ _ _ Hup Hok). reflexivity. }
  destruct (Promise_all_rejects _ _ _ Hin) as (t' & m' & Hall & Hin').
  exists m'. rewrite Hall. split; [reflexivity|]. split; [reflexivity|].
  exact (promises_of_In _ _ _ _ Hin').
Qed.

(** C4, witnessed: the east grid point fails, the other four succeed. *)
Lemma C4_all_or_nothing_witness :
  exists message,
    snd (serve Scenario.east_fails (Scenario.new_york None)) = Err500 message
    /\ status_of (Err500 message) = 500%Z
    /\ exists j qj,
         nth_error (grid_requests Scenario.east_fails
                      (JNum Scenario.new_york_lat) (JNum Scenario.new_york_lon)
                      (JStr Scenario.iso_june15)) j = Some qj
         /\ settle Scenario.east_fails j qj = Rejected message.
Proof.
  eapply (C4_all_or_nothing Scenario.east_fails "POST" _ _ _ None 3).
  - reflexivity.
  - reflexivity.
  - reflexivity.
  - reflexivity.
Defined.

(** C5: the sentinel filter returns the values of the mapping, in their
    order, with every -999 removed; no -999 remains; without any -999 it
    returns the values unchanged; an empty or absent mapping gives the
    empty sequence.  Being a total function it never fails. *)
Theorem C5_sentinel_filter :
  (forall series, Purged (map snd series) (sentinel_filter series))
  /\ (forall series kept,
        Purged (map snd series) kept -> kept = sentinel_filter series)
  /\ (forall series, Forall (fun v => ~ is_sentinel v) (sentinel_filter series))
  /\ (forall series,
        Forall (fun v => ~ is_sentinel v) (map snd series) ->
        sentinel_filter series = map snd series)
  /\ sentinel_filter [] = []
  /\ (forall X nasaData,
        properties nasaData = None
        \/ (exists props, properties nasaData = Some props
                          /\ (parameter props = None
                              \/ exists block, parameter props = Some block
                                               /\ X block = None)) ->
        sentinel_filter (series_of X nasaData) = []).
Proof.
  split; [exact sentinel_filter_Purged|].
  split.
  { intros series kept H.
    exact (Purged_functional _ _ _ H (sentinel_filter_Purged series)). }
  split.
  { intros series. unfold sentinel_filter. apply Forall_forall.
    intros v Hin. apply filter_In in Hin. destruct Hin as [_ Hv].
    intros Hs. apply strict_eq_sentinel in Hs.
    unfold strict_neq in Hv. rewrite Hs in Hv. discriminate. }
  split; [exact sentinel_filter_clean|].
  split; [reflexivity|].
  intros X nasaData [H|(props & H & [Hp|(block & Hp & Hx)])];
    unfold series_of; rewrite H; try rewrite Hp; try rewrite Hx; reflexivity.
Qed.

(** C5, witnessed: a series without fill value, and a reply without
    [properties]. *)
Lemma C5_sentinel_filter_witness :
  sentinel_filter [("20100615"%string, Fin 21); ("20110615"%string, Fin 19)]
  = [Fin 21; Fin 19]
  /\ sentinel_filter (series_of T2M {| properties := None |}) = [].
Proof.
  destruct C5_sentinel_filter as (_ & _ & _ & Hclean & _ & Habsent).
  split.
  - apply (Hclean [("20100615"%string, Fin 21); ("20110615"%string, Fin 19)]).
    repeat constructor; intros (q & E & Hq); injection E as <-; discriminate Hq.
  - apply Habsent. left. reflexivity.
Defined.

(** A series with two fill values among four entries. *)
Example sentinel_filter_sample :
  sentinel_filter [("20100615"%string, Fin 21); ("20100616"%string, Fin (-999));
                   ("20100617"%string, Fin 19); ("20100618"%string, Fin (-999))]
  = [Fin 21; Fin 19].
Proof. reflexivity. Qed.

(** C6: each of the four probabilities of the result is the share of the
    values of its pooled sample that satisfy its predicate (rain: more
    than 1, hot: more than 35, cold: less than 10, wind: more than 10),
    as a percentage rounded to an integer: an integer within less than 1
    of the exact percentage, and a nearest integer of it when the sample
    has fewer than [2^32] values, as every array has.  It is 0 on an
    empty sample, and always an integer between 0 and 100. *)
Theorem C6_probabilities (gridCount : nat) (p : Pooled) :
  let r := assemble gridCount p in
  let rounded_share (probability : number) (pred : number -> bool)
                    (values : list number) :=
    exists k : Z,
      probability = of_Z k
      /\ is_percentage (List.length (filter pred values)) (List.length values) k
      /\ (0 <= k <= 100)%Z in
  (rounded_share (rain_probability r) rainy (allPrecipValues p)
   /\ rounded_share (hot_probability r) hot (allTempValues p)
   /\ rounded_share (cold_probability r) cold (allTempValues p)
   /\ rounded_share (wind_probability r) windy (allWindValues p))
  /\ (forall q : Q,
        (rainy (Fin q) = true <-> 1 < q) /\ (hot (Fin q) = true <-> 35 < q)
        /\ (cold (Fin q) = true <-> q < 10) /\ (windy (Fin q) = true <-> 10 < q))
  /\ (forall pred, probability pred [] = Fin 0).
Proof.
  intros r rounded_share. split; [|split].
  - unfold r, assemble, rounded_share. cbn [rain_probability hot_probability
      cold_probability wind_probability].
    repeat split; apply probability_is_percentage.
  - intros q. unfold rainy, hot, cold, windy, nlt. cbn [ngt].
    repeat split; intros H.
    all: try (apply Qnot_le_lt; intros Hle; apply Qle_bool_iff in Hle;
              rewrite Hle in H; discriminate).
    all: destruct (Qle_bool _ _) eqn:E; [|reflexivity];
         apply Qle_bool_iff in E; exfalso; revert H; apply Qle_not_lt; exact E.
  - reflexivity.
Qed.

(** Three temperatures, none above 35: 0 percent; four precipitation
    values, two above 1: 50 percent; one in eight: 12.5 rounds to 13;
    23 in 40: the share 0.575 times 100 is 57.49999999999999 in
    binary64, which rounds to 57, not to 58. *)
Example probability_samples :
  probability hot [Fin 10; Fin 20; Fin 30] = Fin 0
  /\ probability rainy [Fin 0; Fin 2; Fin 5; Fin (1 # 2)] = Fin 50
  /\ probability rainy [Fin 2; Fin 0; Fin 0; Fin 0; Fin 0; Fin 0; Fin 0; Fin 0] = Fin 13
  /\ probability rainy [NaN; PosInf] = Fin 50
  /\ probability rainy (repeat (Fin 2) 23 ++ repeat (Fin 0) 17) = Fin 57
  /\ nmul (ndiv (Fin 23) (Fin 40)) (Fin 100)
     = Fin (8092405580431359 # 140737488355328).
Proof. repeat split; vm_compute; reflexivity. Qed.




(** The linear sequence of the witness and its trend; the slope of four
    temperatures given with one decimal, which the code returns with a
    rounding error: -0.27000000000000063 for -0.27. *)
Example trend_of_linear_sample :
  map Fin (linear 3 2 4) = [Fin 3; Fin (3 + 2 * 1); Fin (3 + 2 * 2); Fin (3 + 2 * 3)]
  /\ calculateTrend [Fin 3; Fin 5; Fin 7; Fin 9] = Fin 2
  /\ ols_slope [1; 4; 2] == 1 # 2
  /\ ols_slope [213 # 10; 251 # 10; 197 # 10; 222 # 10] == - 27 # 100
  /\ calculateTrend (map literal [213 # 10; 251 # 10; 197 # 10; 222 # 10])
     = Fin (- 4863887597560147 # 18014398509481984).
Proof. repeat split; vm_compute; reflexivity. Qed.

(** C8: when every grid-point fetch succeeds and no reply holds a usable
    value, the handler answers with a prediction, not an error:
    average_temp 20, average_precip 0, both standard deviations 0, the
    four probabilities 0 and data_points 0. *)
Theorem C8_empty_samples_defaults (env : Env) (m : string) (lat lon date : jsval)
    (variables : option (list string)) :
  String.eqb m "OPTIONS" = false ->
  (forall i q,
     nth_error (grid_requests env lat lon date) i = Some q ->
     exists status d,
       upstream env i q = HttpReply status (Json d)
       /\ response_ok status = true /\ no_usable_value d) ->
  exists r,
    snd (serve env {| method := m; body := BodyFields lat lon date variables |})
    = Ok200 r
    /\ average_temp r = Fin 20 /\ average_precip r = Fin 0
    /\ temp_std_dev r = Fin 0 /\ precip_std_dev r = Fin 0
    /\ rain_probability r = Fin 0 /\ hot_probability r = Fin 0
    /\ cold_probability r = Fin 0 /\ wind_probability r = Fin 0
    /\ data_points r = Fin 0.
Proof.
  intros Hm Hup. rewrite serve_fields by exact Hm. cbn [snd].
  destruct (Promise_all_fulfilled
              (promises_of env (grid_requests env lat lon date))
              (fun od => exists d, od = Some d /\ no_usable_value d))
    as (regionalData & Hall & Hdata).
  { apply promises_of_Forall. intros i q Hq.
    destruct (Hup i q Hq) as (status & d & Hreply & Hok & Hempty).
    exists (Some d). cbn [snd]. split; [exact (settle_ok _ _ _ _ _ Hreply Hok)|].
    exists d. split; [reflexivity | exact Hempty]. }
  rewrite Hall, (pool_no_usable_value _ Hdata).
  exists (assemble 5 no_samples). split; [reflexivity|].
  vm_compute. repeat split.
Qed.

(** C8, witnessed: an archive that only holds fill values. *)
Lemma C8_empty_samples_defaults_witness :
  exists r,
    snd (serve Scenario.all_missing (Scenario.new_york None)) = Ok200 r
    /\ average_temp r = Fin 20 /\ average_precip r = Fin 0
    /\ temp_std_dev r = Fin 0 /\ precip_std_dev r = Fin 0
    /\ rain_probability r = Fin 0 /\ hot_probability r = Fin 0
    /\ cold_probability r = Fin 0 /\ wind_probability r = Fin 0
    /\ data_points r = Fin 0.
Proof.
  apply (C8_empty_samples_defaults Scenario.all_missing "POST" _ _ _ None).
  - reflexivity.
  - intros i q _. eexists 200%Z, _. split; [reflexivity|].
    split; [reflexivity|]. repeat split.
Defined.

(** C9: two requests that differ only in [variables] lead to the same
    upstream requests and the same response, whether their fields are
    primitive values or objects; a request with primitive fields that is
    not a preflight has its five upstream requests issued, one per grid
    point, and each asks for the three parameters T2M, PRECTOTCORR and
    WS10M. *)
Theorem C9_variables_are_ignored (env : Env) (m : string) (lat lon date : jsval)
    (variables variables' : option (list string)) :
  serve env {| method := m; body := BodyFields lat lon date variables |}
  = serve env {| method := m; body := BodyFields lat lon date variables' |}
  /\ Forall (fun q => parameters q = "T2M,PRECTOTCORR,WS10M"%string)
            (fst (serve env {| method := m;
                               body := BodyFields lat lon date variables |}))
  /\ (String.eqb m "OPTIONS" = false ->
      fst (serve env {| method := m; body := BodyFields lat lon date variables |})
      = grid_requests env lat lon date
      /\ map parameters
             (fst (serve env {| method := m;
                                body := BodyFields lat lon date variables |}))
         = repeat "T2M,PRECTOTCORR,WS10M"%string 5)
  /\ (forall olat olon odate : option jsval,
        serve env {| method := m; body := BodyObjects olat olon odate variables |}
        = serve env {| method := m; body := BodyObjects olat olon odate variables' |}).
Proof.
  split; [|split; [|split]].
  - reflexivity.
  - destruct (String.eqb m "OPTIONS") eqn:Hm.
    + unfold serve. cbn [method body]. rewrite Hm. constructor.
    + rewrite serve_fields by exact Hm.
      cbn [fst]. unfold grid_requests. cbn [gridPoints map].
      repeat constructor.
  - intros Hm. rewrite serve_fields by exact Hm. split; reflexivity.
  - reflexivity.
Qed.

(** C9, witnessed: the same query with one variable and with all three. *)
Lemma C9_variables_are_ignored_witness :
  serve Scenario.daily_archive (Scenario.new_york (Some ["rainfall"%string]))
  = serve Scenario.daily_archive
      (Scenario.new_york (Some ["temperature"; "rainfall"; "windspeed"]%string))
  /\ map parameters
         (fst (serve Scenario.daily_archive
                     (Scenario.new_york (Some ["rainfall"%string]))))
     = repeat "T2M,PRECTOTCORR,WS10M"%string 5.
Proof.
  destruct (C9_variables_are_ignored Scenario.daily_archive "POST"
              (JNum Scenario.new_york_lat) (JNum Scenario.new_york_lon)
              (JStr Scenario.iso_june15)
              (Some ["rainfall"%string])
              (Some ["temperature"; "rainfall"; "windspeed"]%string))
    as (Hsame & _ & Hissued & _).
  split; [exact Hsame|]. exact (proj2 (Hissued eq_refl)).
Defined.

(** C10: every prediction the handler returns has data_years 15 and
    regional_coverage "~50km radius (5 grid points)", whatever the
    replies held. *)
Theorem C10_constant_fields (env : Env) (req : Request)
    (issued : list FetchRequest) (r : PredictionResult) :
  serve env req = (issued, Ok200 r) ->
  data_years r = Fin 15
  /\ regional_coverage r = "~50km radius (5 grid points)"%string.
Proof.
  intros H. destruct (serve_Ok200_inv _ _ _ _ H) as (rd & pooled & _ & ->).
  split; reflexivity.
Qed.

(** C10, witnessed: the archive holds no usable value at all, the pooled
    sample is empty, and data_years is still 15. *)
Lemma C10_constant_fields_witness :
  data_points (assemble 5 no_samples) = Fin 0
  /\ data_years (assemble 5 no_samples) = Fin 15
  /\ regional_coverage (assemble 5 no_samples)
     = "~50km radius (5 grid points)"%string.
Proof.
  split; [reflexivity|].
  apply (C10_constant_fields Scenario.all_missing (Scenario.new_york None)
           (fst (serve Scenario.all_missing (Scenario.new_york None)))).
  vm_compute. reflexivity.
Defined.

(* ================================================================== *)
(** * Further properties of the code *)

(** ** The fan-out and its outcomes *)

Section FanOut.

Variable env : Env.

(** When every promise is fulfilled, [Promise.all] over the promises of
    [requests] is fulfilled with the values in request order. *)
Lemma promises_of_all_fulfilled (requests : list FetchRequest)
    (value : nat -> option NasaData) :
  (forall i q, nth_error requests i = Some q ->
               settle env i q = Fulfilled (value i)) ->
  Promise_all (promises_of env requests)
  = Fulfilled (map value (seq 0 (List.length requests))).
Proof.
  intros H. unfold promises_of, Promise_all.
  assert (Hgen : forall reqs s,
             (forall i q, nth_error reqs i = Some q ->
                          settle env (s + i) q = Fulfilled (value (s + i)%nat)) ->
             let ps := map (fun iq : nat * FetchRequest =>
                              (settles_at env (fst iq), settle env (fst iq) (snd iq)))
                           (combine (seq s (List.length reqs)) reqs) in
             first_rejection ps = None
             /\ fulfilled_values ps = map value (seq s (List.length reqs))).
  { induction reqs as [|q reqs IH]; intros s Hs.
    - split; reflexivity.
    - cbn [List.length seq combine map fst snd first_rejection fulfilled_values].
      assert (H0 := Hs 0%nat q eq_refl). rewrite Nat.add_0_r in H0. rewrite H0.
      destruct (IH (S s)) as [IH1 IH2].
      { intros i qi Hi. specialize (Hs (S i) qi Hi).
        rewrite Nat.add_succ_r in Hs. exact Hs. }
      cbv zeta in IH1, IH2. split; [exact IH1 | rewrite IH2; reflexivity]. }
  destruct (Hgen requests 0%nat H) as [Hnone Hvalues].
  cbv zeta in Hnone, Hvalues. rewrite Hnone, Hvalues. reflexivity.
Qed.

(** A [null] among the decoded bodies stops the pooling loop. *)
Lemma pool_null (regionalData : list (option NasaData)) (acc : Pooled) :
  In None regionalData ->
  pool regionalData acc
  = Rejected "Cannot read properties of null (reading 'properties')".
Proof.
  revert acc. induction regionalData as [|[d|] rest IH]; intros acc Hin;
    cbn [pool].
  - contradiction.
  - destruct Hin as [Heq|Hin]; [discriminate | exact (IH _ Hin)].
  - reflexivity.
Qed.

End FanOut.

(** X1: the upstream requests a query triggers depend on the request,
    the clock, the [Date] constructor and the string conversion only:
    whatever the archive answers and in whatever order, the same
    requests are issued, none for a preflight, for an unreadable body
    or for a field that cannot be converted to a primitive, and five
    otherwise. *)
Theorem X1_fan_out_ignores_replies (env env' : Env) (req : Request) :
  currentYear env = currentYear env' ->
  (forall v, Date_ctor env v = Date_ctor env' v) ->
  (forall s, StringToNumber env s = StringToNumber env' s) ->
  fst (serve env req) = fst (serve env' req)
  /\ List.length (fst (serve env req))
     = (if String.eqb (method req) "OPTIONS" then 0
        else if unreadable (body req) || unconvertible (body req) then 0
             else 5)%nat.
Proof.
  intros Hyear Hdate Hnum.
  assert (Hfields : forall m lat lon date variables,
             String.eqb m "OPTIONS" = false ->
             fst (serve env {| method := m; body := BodyFields lat lon date variables |})
             = fst (serve env' {| method := m; body := BodyFields lat lon date variables |})
             /\ List.length
                  (fst (serve env {| method := m;
                                     body := BodyFields lat lon date variables |}))
                = 5%nat).
  { intros m lat lon date variables Hm. rewrite !serve_fields by exact Hm. cbn [fst].
    split; [|reflexivity].
    unfold grid_requests, window, gridPoints, js_add_half, js_sub_half, ToNumber.
    rewrite Hyear, Hdate.
    destruct lat as [| |b|x|s]; destruct lon as [| |b'|x'|s'];
      rewrite ?Hnum; reflexivity. }
  destruct req as [m b]. cbn [method body].
  destruct (String.eqb m "OPTIONS") eqn:Hm.
  - unfold serve. cbn [method body]. rewrite Hm. split; reflexivity.
  - destruct b as [message|lat lon date variables|[lat|] [lon|] [date|] variables];
      try (unfold serve; cbn [method body]; rewrite Hm; split; reflexivity).
    + apply Hfields. exact Hm.
    + rewrite !serve_objects. apply Hfields. exact Hm.
Qed.

(** X1, witnessed: an archive that answers and one that fails. *)
Lemma X1_fan_out_ignores_replies_witness :
  fst (serve Scenario.all_missing (Scenario.new_york None))
  = fst (serve Scenario.east_fails (Scenario.new_york None))
  /\ List.length (fst (serve Scenario.all_missing (Scenario.new_york None))) = 5%nat.
Proof.
  apply (X1_fan_out_ignores_replies Scenario.all_missing Scenario.east_fails
           (Scenario.new_york None)); reflexivity.
Defined.

(** X2: when the five fetches are answered with a success status and a
    JSON body, the response is the prediction computed from the three
    pooled samples, each the concatenation in grid order (centre, north,
    south, east, west) of the cleaned series of the replies; data_points
    is the number of usable temperature values over the five replies. *)
Theorem X2_success_path (env : Env) (m : string) (lat lon date : jsval)
    (variables : option (list string)) (reply : nat -> NasaData) :
  String.eqb m "OPTIONS" = false ->
  (forall i q,
     nth_error (grid_requests env lat lon date) i = Some q ->
     exists status,
       upstream env i q = HttpReply status (Json (reply i))
       /\ response_ok status = true) ->
  let ds := map reply (seq 0 5) in
  let pooled :=
    {| allTempValues := flat_map (fun d => sentinel_filter (series_of T2M d)) ds;
       allPrecipValues :=
         flat_map (fun d => sentinel_filter (series_of PRECTOTCORR d)) ds;
       allWindValues := flat_map (fun d => sentinel_filter (series_of WS10M d)) ds |} in
  snd (serve env {| method := m; body := BodyFields lat lon date variables |})
  = Ok200 (assemble 5 pooled)
  /\ data_points (assemble 5 pooled)
     = of_nat (list_sum (map (fun d => List.length (sentinel_filter (series_of T2M d)))
                             ds)).
Proof.
  intros Hm Hup ds pooled. split.
  - rewrite serve_fields by exact Hm. cbn [snd].
    rewrite (promises_of_all_fulfilled env _ (fun i => Some (reply i))).
    + change (map (fun i => Some (reply i)) (seq 0 (List.length (grid_requests env lat lon date))))
        with (map Some ds).
      rewrite pool_concatenates. reflexivity.
    + intros i q Hq. destruct (Hup i q Hq) as (status & Hreply & Hok).
      exact (settle_ok env _ _ _ _ Hreply Hok).
  - unfold assemble, len. cbn [data_points allTempValues]. f_equal.
    unfold pooled. cbn [allTempValues].
    generalize ds. clear. induction ds as [|d ds IH]; cbn [flat_map map list_sum].
    + reflexivity.
    + rewrite length_app, IH. reflexivity.
Qed.

(** X2, witnessed: each reply holds three days of temperatures. *)
Lemma X2_success_path_witness :
  let reply := fun _ : nat =>
    {| properties :=
         Some {| parameter :=
                   Some {| T2M := Some [("20100615"%string, Fin 20);
                                        ("20100616"%string, Fin 26);
                                        ("20100617"%string, Fin 32)];
                           PRECTOTCORR := Some []; WS10M := Some [] |} |} |} in
  let ds := map reply (seq 0 5) in
  let pooled :=
    {| allTempValues := flat_map (fun d => sentinel_filter (series_of T2M d)) ds;
       allPrecipValues :=
         flat_map (fun d => sentinel_filter (series_of PRECTOTCORR d)) ds;
       allWindValues := flat_map (fun d => sentinel_filter (series_of WS10M d)) ds |} in
  snd (serve Scenario.daily_archive (Scenario.new_york None))
  = Ok200 (assemble 5 pooled)
  /\ data_points (assemble 5 pooled)
     = of_nat (list_sum (map (fun d => List.length (sentinel_filter (series_of T2M d)))
                             ds)).
Proof.
  apply (X2_success_path Scenario.daily_archive "POST" _ _ _ None).
  - reflexivity.
  - intros i q Hq. exists 200%Z.
    assert (Hrange : start q = "20100615"%string /\ end_ q = "20240615"%string).
    { do 5 (destruct i as [|i]; [injection Hq as <-; split; reflexivity|]).
      destruct i; discriminate Hq. }
    destruct Hrange as [Hs He]. split; [|reflexivity].
    cbn [upstream Scenario.daily_archive Scenario.in_2025]. rewrite Hs, He. reflexivity.
Defined.

(** X3: when one grid-point fetch is answered with a non-success status
    and the other four promises are fulfilled, the response is a 500
    whose error is "NASA API error: " followed by that status. *)
Theorem X3_single_failure_message (env : Env) (m : string) (lat lon date : jsval)
    (variables : option (list string)) (i : nat) (q : FetchRequest)
    (status : Z) (payload : Payload) :
  String.eqb m "OPTIONS" = false ->
  nth_error (grid_requests env lat lon date) i = Some q ->
  upstream env i q = HttpReply status payload ->
  response_ok status = false ->
  (forall j qj,
     j <> i -> nth_error (grid_requests env lat lon date) j = Some qj ->
     exists value, settle env j qj = Fulfilled value) ->
  snd (serve env {| method := m; body := BodyFields lat lon date variables |})
  = Err500 ("NASA API error: " ++ Z_toString status).
Proof.
  intros Hm Hq Hup Hok Hothers. rewrite serve_fields by exact Hm. cbn [snd].
  assert (Hin : In (settles_at env i,
                    Rejected ("NASA API error: " ++ Z_toString status))
                   (promises_of env (grid_requests env lat lon date))).
  { apply nth_error_In with i. rewrite (promises_of_nth_error _ _ _ _ Hq).
    rewrite (settle_not_ok _ _ _ _ _ Hup Hok). reflexivity. }
  destruct (Promise_all_rejects _ _ _ Hin) as (t' & m' & Hall & Hin').
  rewrite Hall. f_equal.
  destruct (promises_of_In _ _ _ _ Hin') as (j & qj & Hqj & Hsettle).
  destruct (Nat.eq_dec j i) as [->|Hne].
  - rewrite Hq in Hqj. injection Hqj as <-.
    rewrite (settle_not_ok _ _ _ _ _ Hup Hok) in Hsettle.
    injection Hsettle as <-. reflexivity.
  - destruct (Hothers j qj Hne Hqj) as (value & Hvalue). congruence.
Qed.

(** X3, witnessed: only the east grid point fails, with status 404. *)
Lemma X3_single_failure_message_witness :
  snd (serve Scenario.east_fails (Scenario.new_york None))
  = Err500 ("NASA API error: " ++ Z_toString 404).
Proof.
  eapply (X3_single_failure_message Scenario.east_fails "POST" _ _ _ None 3 _ 404 JsonNull).
  - reflexivity.
  - reflexivity.
  - reflexivity.
  - reflexivity.
  - intros j qj Hne Hqj.
    do 5 (destruct j as [|j];
          [first [contradiction Hne; reflexivity
                 | injection Hqj as <-; eexists; reflexivity]|]).
    destruct j; discriminate Hqj.
Defined.

(** X4: a reply with a success status whose body is the JSON value
    [null] makes the whole call fail with status 500, even though every
    fetch succeeded: the pooling loop reads [.properties] of [null]. *)
Theorem X4_null_body_fails (env : Env) (m : string) (lat lon date : jsval)
    (variables : option (list string)) (value : nat -> option NasaData) (i : nat) :
  String.eqb m "OPTIONS" = false ->
  (forall j qj,
     nth_error (grid_requests env lat lon date) j = Some qj ->
     settle env j qj = Fulfilled (value j)) ->
  (i < 5)%nat -> value i = None ->
  snd (serve env {| method := m; body := BodyFields lat lon date variables |})
  = Err500 "Cannot read properties of null (reading 'properties')".
Proof.
  intros Hm Hall Hi Hnull. rewrite serve_fields by exact Hm. cbn [snd].
  rewrite (promises_of_all_fulfilled env _ value Hall).
  rewrite pool_null; [reflexivity|].
  rewrite <- Hnull. apply in_map. apply in_seq.
  change (List.length (grid_requests env lat lon date)) with 5%nat. lia.
Qed.

(** X4, witnessed: the south grid point is answered [200 null]. *)
Lemma X4_null_body_fails_witness :
  let env := Scenario.in_2025 (fun i _ =>
               if (i =? 2)%nat then HttpReply 200 JsonNull
               else Scenario.reply_with [("20100615"%string, Fin 20)] [] []) in
  snd (serve env (Scenario.new_york None))
  = Err500 "Cannot read properties of null (reading 'properties')".
Proof.
  cbv zeta.
  apply (X4_null_body_fails _ "POST" _ _ _ None
           (fun j => if (j =? 2)%nat then None
                     else Some {| properties :=
                                    Some {| parameter :=
                                              Some {| T2M := Some [("20100615"%string, Fin 20)];
                                                      PRECTOTCORR := Some [];
                                                      WS10M := Some [] |} |} |})
           2).
  - reflexivity.
  - intros j qj Hqj.
    do 5 (destruct j as [|j]; [injection Hqj as <-; reflexivity|]).
    destruct j; discriminate Hqj.
  - lia.
  - reflexivity.
Defined.

(** ** More on the exceedance probabilities *)

Section Exceedance.

Lemma filter_all {A} (p : A -> bool) (l : list A) :
  (forall v, In v l -> p v = true) -> filter p l = l.
Proof.
  induction l as [|v l IH]; intros H; cbn [filter]; [reflexivity|].
  rewrite (H v (or_introl eq_refl)), IH; [reflexivity|].
  intros w Hw. apply H. right. exact Hw.
Qed.

Lemma filter_none {A} (p : A -> bool) (l : list A) :
  (forall v, In v l -> p v = false) -> filter p l = [].
Proof.
  induction l as [|v l IH]; intros H; cbn [filter]; [reflexivity|].
  rewrite (H v (or_introl eq_refl)). apply IH.
  intros w Hw. apply H. right. exact Hw.
Qed.

(** The percentages of two shares of non-empty samples, the first at
    most the second, are in the same order. *)
Lemma probability_order (c t c' t' : nat) :
  (0 < t)%nat -> (0 < t')%nat -> (c <= t)%nat -> (c' <= t')%nat ->
  (c * t' <= c' * t)%nat ->
  exists k k' : Z,
    percent_of (share c t) = of_Z k /\ percent_of (share c' t') = of_Z k'
    /\ (k <= k')%Z.
Proof.
  intros Ht Ht' Hc Hc' H.
  apply percent_of_mono.
  - apply (share_range c t Ht Hc).
  - apply share_le; assumption.
  - apply (share_range c' t' Ht' Hc').
Qed.

Lemma percent_of_zero (t : nat) : (0 < t)%nat -> percent_of (share 0 t) = of_Z 0.
Proof.
  intros Ht. rewrite <- (percent_of_hundredth 0) by lia. apply percent_of_comp.
  unfold share, Qeq. reflexivity.
Qed.

Lemma percent_of_all (t : nat) : (0 < t)%nat -> percent_of (share t t) = of_Z 100.
Proof.
  intros Ht. rewrite <- (percent_of_hundredth 100) by lia. apply percent_of_comp.
  unfold share, Qeq. cbn [Qnum Qden]. rewrite Z2Pos.id by lia. lia.
Qed.

End Exceedance.

(** X11: adding a value that satisfies the predicate to a sample never
    lowers the probability, and adding one that does not never raises
    it. *)
Theorem X11_probability_monotone (p : number -> bool) (v : number)
    (values : list number) :
  exists before after : Z,
    probability p values = of_Z before
    /\ probability p (v :: values) = of_Z after
    /\ (p v = true -> (before <= after)%Z)
    /\ (p v = false -> (after <= before)%Z).
Proof.
  assert (Hle := filter_length_le p values).
  set (c := List.length (filter p values)) in *.
  set (t := List.length values) in *.
  assert (Hafter : probability p (v :: values)
                   = percent_of (share (if p v then S c else c) (S t))).
  { rewrite probability_share by (cbn [List.length]; lia).
    cbn [filter List.length]. destruct (p v); reflexivity. }
  rewrite Hafter.
  destruct (Nat.eq_dec t 0) as [E|E].
  - assert (Hnil : values = []) by (destruct values; [reflexivity | discriminate E]).
    assert (Hc : c = 0%nat) by lia.
    rewrite Hnil, Hc, E. unfold probability. cbn [List.length Nat.ltb Nat.leb].
    destruct (p v).
    + exists 0%Z, 100%Z. rewrite (percent_of_all 1) by lia.
      repeat split; intros; try discriminate; lia.
    + exists 0%Z, 0%Z. rewrite (percent_of_zero 1) by lia.
      repeat split; intros; lia.
  - rewrite probability_share by (fold t; lia). fold c t.
    destruct (p v).
    + destruct (probability_order c t (S c) (S t)) as (k & k' & Hk & Hk' & Hkk);
        try lia.
      exists k, k'. repeat split; try assumption; intros; try discriminate; lia.
    + destruct (probability_order c (S t) c t) as (k & k' & Hk & Hk' & Hkk);
        try lia.
      exists k', k. repeat split; try assumption; intros; try discriminate; lia.
Qed.

(** Two rainy days out of four, then a third rainy day, or a dry one. *)
Example probability_after_one_more_day :
  probability rainy [Fin 0; Fin 2; Fin 5; Fin (1 # 2)] = Fin 50
  /\ probability rainy [Fin 3; Fin 0; Fin 2; Fin 5; Fin (1 # 2)] = Fin 60
  /\ probability rainy [Fin 0; Fin 0; Fin 2; Fin 5; Fin (1 # 2)] = Fin 40.
Proof. repeat split; vm_compute; reflexivity. Qed.

(** X12: on a non-empty sample the probability is 100 when every value
    satisfies the predicate and 0 when none does. *)
Theorem X12_probability_extremes (p : number -> bool) (values : list number) :
  values <> [] ->
  ((forall v, In v values -> p v = true) -> probability p values = Fin 100)
  /\ ((forall v, In v values -> p v = false) -> probability p values = Fin 0).
Proof.
  intros Hne.
  assert (Hlen : (0 < List.length values)%nat).
  { destruct values; [contradiction | cbn; lia]. }
  split; intros H; rewrite probability_share by exact Hlen.
  - rewrite (filter_all p _ H). exact (percent_of_all _ Hlen).
  - rewrite (filter_none p _ H). exact (percent_of_zero _ Hlen).
Qed.

(** X12, witnessed: three temperatures all below 10, none above 35. *)
Lemma X12_probability_extremes_witness :
  probability cold [Fin 3; Fin (- 2); Fin 9] = Fin 100
  /\ probability hot [Fin 3; Fin (- 2); Fin 9] = Fin 0.
Proof.
  split.
  - apply (X12_probability_extremes cold [Fin 3; Fin (- 2); Fin 9]);
      [discriminate|]. intros v [<-|[<-|[<-|[]]]]; reflexivity.
  - apply (X12_probability_extremes hot [Fin 3; Fin (- 2); Fin 9]);
      [discriminate|]. intros v [<-|[<-|[<-|[]]]]; reflexivity.
Defined.

(** ** The single-point handler against the regional one *)

Section PointAndRegion.

Variable env : Env.

Lemma point_request (m : string) (lat lon date : jsval)
    (variables : option (list string)) :
  String.eqb m "OPTIONS" = false ->
  fst (SinglePoint.serve env {| method := m;
                                body := BodyFields lat lon date variables |})
  = [ {| latitude := lat; longitude := lon; start := fst (window env date);
         end_ := snd (window env date); parameters := PARAMETERS |} ].
Proof.
  intros Hm. unfold SinglePoint.serve. cbn [method body]. rewrite Hm.
  unfold SinglePoint.predict.
  destruct (window env date) as [startDate endDate]. cbn [fst snd].
  destruct (upstream env 0 _) as [message|status payload]; [reflexivity|].
  destruct (negb (response_ok status)); [reflexivity|].
  destruct payload as [message| |d]; [reflexivity| |]; cbn [SinglePoint.parameter_of].
  - reflexivity.
  - destruct (properties d) as [props|]; [|reflexivity].
    destruct (parameter props); reflexivity.
Qed.

(** The regional handler when the five fetches are fulfilled. *)
Lemma serve_all_fulfilled (m : string) (lat lon date : jsval)
    (variables : option (list string)) (reply : nat -> NasaData) :
  String.eqb m "OPTIONS" = false ->
  (forall i q, nth_error (grid_requests env lat lon date) i = Some q ->
               settle env i q = Fulfilled (Some (reply i))) ->
  snd (serve env {| method := m; body := BodyFields lat lon date variables |})
  = Ok200 (assemble 5
             {| allTempValues :=
                  flat_map (fun d => sentinel_filter (series_of T2M d))
                           (map reply (seq 0 5));
                allPrecipValues :=
                  flat_map (fun d => sentinel_filter (series_of PRECTOTCORR d))
                           (map reply (seq 0 5));
                allWindValues :=
                  flat_map (fun d => sentinel_filter (series_of WS10M d))
                           (map reply (seq 0 5)) |}).
Proof.
  intros Hm Hall. rewrite serve_fields by exact Hm. cbn [snd].
  rewrite (promises_of_all_fulfilled env _ (fun i => Some (reply i)) Hall).
  change (map (fun i => Some (reply i))
              (seq 0 (List.length (grid_requests env lat lon date))))
    with (map Some (map reply (seq 0 5))).
  rewrite pool_concatenates. reflexivity.
Qed.

End PointAndRegion.

(** X13: the single-point handler issues one upstream request, the one
    the regional handler issues for the centre of its grid; both issue
    none for a preflight or an unreadable body. *)
Theorem X13_point_request_is_centre (env : Env) (req : Request) :
  fst (SinglePoint.serve env req) = firstn 1 (fst (serve env req)).
Proof.
  assert (Hfields : forall m lat lon date variables,
             String.eqb m "OPTIONS" = false ->
             fst (SinglePoint.serve env {| method := m;
                                           body := BodyFields lat lon date variables |})
             = firstn 1 (fst (serve env {| method := m;
                                           body := BodyFields lat lon date variables |}))).
  { intros m lat lon date variables Hm.
    rewrite (point_request env m lat lon date variables Hm).
    rewrite serve_fields by exact Hm. reflexivity. }
  destruct req as [m b]. destruct (String.eqb m "OPTIONS") eqn:Hm.
  - unfold SinglePoint.serve, serve. cbn [method body]. rewrite Hm. reflexivity.
  - destruct b as [message|lat lon date variables|[lat|] [lon|] [date|] variables];
      try (unfold SinglePoint.serve, serve; cbn [method body]; rewrite Hm; reflexivity).
    + apply Hfields. exact Hm.
    + rewrite serve_objects. apply (Hfields m lat lon date variables Hm).
Qed.

(** X14: a reply without [properties], or without [properties.parameter],
    is an error for the single-point handler, which reads the members
    without optional chaining, and an empty sample for the regional
    handler, which answers with the defaults of the empty prediction. *)
Theorem X14_reply_without_parameter (env : Env) (m : string) (lat lon date : jsval)
    (variables : option (list string)) (d : NasaData) :
  String.eqb m "OPTIONS" = false ->
  (forall i q, exists status,
      upstream env i q = HttpReply status (Json d) /\ response_ok status = true) ->
  properties d = None
  \/ (exists props, properties d = Some props /\ parameter props = None) ->
  let req := {| method := m; body := BodyFields lat lon date variables |} in
  (exists error, snd (SinglePoint.serve env req) = SinglePoint.Err500 error)
  /\ snd (serve env req) = Ok200 (assemble 5 no_samples).
Proof.
  intros Hm Hup Habsent req. split.
  - unfold req, SinglePoint.serve. cbn [method body]. rewrite Hm.
    unfold SinglePoint.predict.
    destruct (window env date) as [startDate endDate].
    destruct (Hup 0%nat {| latitude := lat; longitude := lon; start := startDate;
                           end_ := endDate; parameters := PARAMETERS |})
      as (status & Hreply & Hok).
    rewrite Hreply, Hok. cbn [negb snd SinglePoint.parameter_of].
    destruct Habsent as [Hp|(props & Hp & Hq)]; rewrite Hp; [|rewrite Hq];
      eexists; reflexivity.
  - unfold req. rewrite (serve_all_fulfilled env m lat lon date variables (fun _ => d) Hm).
    + assert (Hempty : forall X, series_of X d = []).
      { intros X. unfold series_of.
        destruct Habsent as [Hp|(props & Hp & Hq)]; rewrite Hp; [|rewrite Hq];
          reflexivity. }
      cbn [seq map flat_map]. rewrite !Hempty. reflexivity.
    + intros i q _. destruct (Hup i q) as (status & Hreply & Hok).
      exact (settle_ok env _ _ _ _ Hreply Hok).
Qed.

(** X14, witnessed: every reply is the empty JSON object. *)
Lemma X14_reply_without_parameter_witness :
  let env := Scenario.in_2025 (fun _ _ => HttpReply 200 (Json {| properties := None |})) in
  (exists error,
      snd (SinglePoint.serve env (Scenario.new_york None)) = SinglePoint.Err500 error)
  /\ snd (serve env (Scenario.new_york None)) = Ok200 (assemble 5 no_samples).
Proof.
  cbv zeta.
  apply (X14_reply_without_parameter _ "POST" _ _ _ None {| properties := None |}).
  - reflexivity.
  - intros i q. exists 200%Z. split; reflexivity.
  - left. reflexivity.
Defined.

Section UniformRegion.

(** Five copies of a sample, as pooling five equal replies gives them. *)
Lemma probability_five_copies (p : number -> bool) (l : list number) :
  probability p (l ++ l ++ l ++ l ++ l ++ []) = probability p l.
Proof.
  destruct l as [|v l]; [reflexivity|].
  rewrite !probability_share by (rewrite ?length_app; cbn [List.length]; lia).
  apply percent_of_comp.
  rewrite !filter_app, !length_app. cbn [filter].
  set (c := List.length (filter p (v :: l))). set (t := List.length (v :: l)).
  assert (Ht : (0 < t)%nat) by (unfold t; cbn [List.length]; lia).
  unfold share, Qeq. cbn [Qnum Qden List.length]. rewrite !Z2Pos.id by lia. lia.
Qed.

End UniformRegion.

(** X15: when the archive answers the five grid points with the same
    body as the centre, the regional handler and the single-point
    handler report the same four probabilities; the regional
    data_points is five times the single-point data_years, which counts
    the usable temperature values of the reply, not years. *)
Theorem X15_uniform_region (env : Env) (m : string) (lat lon date : jsval)
    (variables : option (list string)) (block : ParameterBlock) :
  String.eqb m "OPTIONS" = false ->
  (forall i q, exists status,
      upstream env i q
      = HttpReply status (Json {| properties := Some {| parameter := Some block |} |})
      /\ response_ok status = true) ->
  let req := {| method := m; body := BodyFields lat lon date variables |} in
  let usable := List.length (sentinel_filter (SinglePoint.or_empty (T2M block))) in
  exists point region,
    snd (SinglePoint.serve env req) = SinglePoint.Ok200 point
    /\ snd (serve env req) = Ok200 region
    /\ rain_probability region = SinglePoint.rain_probability point
    /\ hot_probability region = SinglePoint.hot_probability point
    /\ cold_probability region = SinglePoint.cold_probability point
    /\ wind_probability region = SinglePoint.wind_probability point
    /\ SinglePoint.data_years point = of_nat usable
    /\ data_points region = of_nat (5 * usable).
Proof.
  intros Hm Hup req usable.
  set (d := {| properties := Some {| parameter := Some block |} |}) in *.
  assert (Hseries : forall X, series_of X d = SinglePoint.or_empty (X block)).
  { intros X. unfold series_of, d. cbn [properties parameter].
    destruct (X block); reflexivity. }
  eexists _, _. split; [|split].
  - unfold req, SinglePoint.serve. cbn [method body]. rewrite Hm.
    unfold SinglePoint.predict.
    destruct (window env date) as [startDate endDate].
    destruct (Hup 0%nat {| latitude := lat; longitude := lon; start := startDate;
                           end_ := endDate; parameters := PARAMETERS |})
      as (status & Hreply & Hok).
    rewrite Hreply, Hok. reflexivity.
  - unfold req. apply (serve_all_fulfilled env m lat lon date variables (fun _ => d) Hm).
    intros i q _. destruct (Hup i q) as (status & Hreply & Hok).
    exact (settle_ok env _ _ _ _ Hreply Hok).
  - cbn [seq map flat_map]. rewrite !Hseries.
    unfold assemble, SinglePoint.summarise.
    cbn [rain_probability hot_probability cold_probability
         wind_probability data_points allTempValues allPrecipValues allWindValues
         SinglePoint.rain_probability
         SinglePoint.hot_probability SinglePoint.cold_probability
         SinglePoint.wind_probability SinglePoint.data_years].
    rewrite !probability_five_copies.
    repeat split. unfold len, usable. f_equal.
    rewrite !length_app. cbn [List.length]. lia.
Qed.

(** X15, witnessed: every grid point has the three days of the centre. *)
Lemma X15_uniform_region_witness :
  let env := Scenario.in_2025 (fun _ _ =>
               Scenario.reply_with [("20100615"%string, Fin 20);
                                    ("20100616"%string, Fin 26);
                                    ("20100617"%string, Fin 32)] [] []) in
  exists point region,
    snd (SinglePoint.serve env (Scenario.new_york None)) = SinglePoint.Ok200 point
    /\ snd (serve env (Scenario.new_york None)) = Ok200 region
    /\ rain_probability region = SinglePoint.rain_probability point
    /\ hot_probability region = SinglePoint.hot_probability point
    /\ cold_probability region = SinglePoint.cold_probability point
    /\ wind_probability region = SinglePoint.wind_probability point
    /\ SinglePoint.data_years point = of_nat 3
    /\ data_points region = of_nat (5 * 3).
Proof.
  cbv zeta.
  apply (X15_uniform_region _ "POST" _ _ _ None
           {| T2M := Some [("20100615"%string, Fin 20); ("20100616"%string, Fin 26);
                           ("20100617"%string, Fin 32)];
              PRECTOTCORR := Some []; WS10M := Some [] |}).
  - reflexivity.
  - intros i q. exists 200%Z. split; reflexivity.
Defined.

(** ** The search form and the results card *)

Section Selection.

Import DateLocationInput.

Lemma includes_In (variableId : string) (prev : list string) :
  existsb (String.eqb variableId) prev = true <-> In variableId prev.
Proof.
  rewrite existsb_exists. split.
  - intros (v & Hv & E). apply String.eqb_eq in E. subst v. exact Hv.
  - intros H. exists variableId. split; [exact H | apply String.eqb_refl].
Qed.

Lemma toggleVariable_In (variableId : string) (prev : list string) (v : string) :
  In v (toggleVariable variableId prev)
  <-> (v <> variableId /\ In v prev) \/ (v = variableId /\ ~ In variableId prev).
Proof.
  unfold toggleVariable.
  destruct (existsb (String.eqb variableId) prev) eqn:E.
  - apply includes_In in E. rewrite filter_In. split.
    + intros [Hin Hne]. left. split; [|exact Hin].
      intros ->. rewrite String.eqb_refl in Hne. discriminate.
    + intros [[Hne Hin]|[-> Hout]]; [|contradiction].
      split; [exact Hin|]. apply String.eqb_neq in Hne. rewrite Hne. reflexivity.
  - assert (Hout : ~ In variableId prev).
    { intros H. apply includes_In in H. congruence. }
    rewrite in_app_iff. cbn [In]. split.
    + intros [Hin|[<-|[]]].
      * left. split; [|exact Hin]. intros ->. contradiction.
      * right. split; [reflexivity | exact Hout].
    + intros [[_ Hin]|[-> _]]; [left; exact Hin | right; left; reflexivity].
Qed.

Lemma filter_absent (variableId : string) (l : list string) :
  ~ In variableId l -> filter (fun v => negb (String.eqb v variableId)) l = l.
Proof.
  intros Hout. apply filter_all. intros v Hv.
  destruct (String.eqb_spec v variableId) as [->|_]; [contradiction | reflexivity].
Qed.

End Selection.

(** X16: toggling a variable flips its membership in the selection and
    leaves the membership of every other variable unchanged; a
    selection without repetition stays without repetition. *)
Theorem X16_toggle_flips_membership (variableId : string) (prev : list string) :
  (In variableId (DateLocationInput.toggleVariable variableId prev)
   <-> ~ In variableId prev)
  /\ (forall v, v <> variableId ->
                (In v (DateLocationInput.toggleVariable variableId prev) <-> In v prev))
  /\ (NoDup prev -> NoDup (DateLocationInput.toggleVariable variableId prev)).
Proof.
  split; [|split].
  - rewrite toggleVariable_In. split.
    + intros [[Hne _]|[_ Hout]]; [contradiction Hne; reflexivity | exact Hout].
    + intros Hout. right. split; [reflexivity | exact Hout].
  - intros v Hne. rewrite toggleVariable_In. split.
    + intros [[_ Hin]|[-> _]]; [exact Hin | contradiction Hne; reflexivity].
    + intros Hin. left. split; assumption.
  - intros Hnd. unfold DateLocationInput.toggleVariable.
    destruct (existsb (String.eqb variableId) prev) eqn:E.
    + apply NoDup_filter. exact Hnd.
    + apply NoDup_app; [exact Hnd | repeat constructor; intros [] |].
      intros v Hv [<-|[]]. apply includes_In in Hv. congruence.
Qed.

(** X16, witnessed on the initial selection. *)
Lemma X16_toggle_flips_membership_witness :
  NoDup (DateLocationInput.toggleVariable "windspeed"
           DateLocationInput.initial_selection)
  /\ DateLocationInput.toggleVariable "windspeed" DateLocationInput.initial_selection
     = ["temperature"; "rainfall"; "windspeed"]%string
  /\ DateLocationInput.toggleVariable "temperature" DateLocationInput.initial_selection
     = ["rainfall"]%string.
Proof.
  destruct (X16_toggle_flips_membership "windspeed" DateLocationInput.initial_selection)
    as (_ & _ & Hnd).
  split; [|split; reflexivity].
  apply Hnd. repeat constructor; cbn; intuition discriminate.
Defined.

(** X17: selecting a variable that was not selected and deselecting it
    again gives back the selection, in the same order; deselecting a
    selected variable and selecting it again moves it to the end. *)
Theorem X17_toggle_twice (variableId : string) (prev : list string) :
  (~ In variableId prev ->
   DateLocationInput.toggleVariable variableId
     (DateLocationInput.toggleVariable variableId prev) = prev)
  /\ (In variableId prev ->
      DateLocationInput.toggleVariable variableId
        (DateLocationInput.toggleVariable variableId prev)
      = filter (fun v => negb (String.eqb v variableId)) prev ++ [variableId]).
Proof.
  split; intros H.
  - unfold DateLocationInput.toggleVariable at 2.
    destruct (existsb (String.eqb variableId) prev) eqn:E.
    + apply includes_In in E. contradiction.
    + unfold DateLocationInput.toggleVariable.
      assert (Hin : existsb (String.eqb variableId) (prev ++ [variableId]) = true).
      { apply includes_In. apply in_app_iff. right. left. reflexivity. }
      rewrite Hin, filter_app, (filter_absent _ _ H). cbn [filter].
      rewrite String.eqb_refl. cbn [negb]. apply app_nil_r.
  - unfold DateLocationInput.toggleVariable at 2.
    assert (E : existsb (String.eqb variableId) prev = true) by (apply includes_In; exact H).
    rewrite E. unfold DateLocationInput.toggleVariable.
    destruct (existsb (String.eqb variableId) (filter _ prev)) eqn:E'; [|reflexivity].
    apply includes_In in E'. apply filter_In in E'. destruct E' as [_ E'].
    rewrite String.eqb_refl in E'. discriminate.
Qed.

(** X17, witnessed on the initial selection. *)
Lemma X17_toggle_twice_witness :
  DateLocationInput.toggleVariable "windspeed"
    (DateLocationInput.toggleVariable "windspeed" DateLocationInput.initial_selection)
  = DateLocationInput.initial_selection
  /\ DateLocationInput.toggleVariable "temperature"
       (DateLocationInput.toggleVariable "temperature"
          DateLocationInput.initial_selection)
     = ["rainfall"; "temperature"]%string.
Proof.
  destruct (X17_toggle_twice "windspeed" DateLocationInput.initial_selection) as [Hout _].
  destruct (X17_toggle_twice "temperature" DateLocationInput.initial_selection) as [_ Hin].
  split.
  - apply Hout. cbn. intuition discriminate.
  - rewrite Hin; [reflexivity | left; reflexivity].
Defined.

(** ** The format of the window *)

Section WindowFormat.

Lemma year_is_four_digits (z : Z) :
  (1000 <= z <= 9999)%Z -> Z_toString z = four_digits z.
Proof.
  intros Hz. apply String.eqb_eq.
  apply (forallb_range (fun y => String.eqb (Z_toString y) (four_digits y)) 1000 9000);
    [vm_compute; reflexivity | lia].
Qed.

Lemma padded_two_digits (z : Z) :
  (0 <= z <= 99)%Z -> padStart (toString (Some z)) 2 "0" = two_digits z.
Proof.
  intros Hz. apply String.eqb_eq.
  apply (forallb_range
           (fun y => String.eqb (padStart (toString (Some y)) 2 "0") (two_digits y))
           0 100);
    [vm_compute; reflexivity | lia].
Qed.

End WindowFormat.

(** X19: for a valid target date (month 0 to 11, day 1 to 31) and a
    current year from 1015 to 10000, the two ends of the window are the
    four digits of the year, fifteen years back and one year back,
    followed by the two digits of the month counted from 1 and the two
    digits of the day, both padded with a zero: 8 characters in all. *)
Theorem X19_window_format (env : Env) (date : jsval) (y m0 d : Z) :
  Date_ctor env date = ValidDate y m0 d ->
  (0 <= m0 <= 11)%Z -> (1 <= d <= 31)%Z ->
  (1015 <= currentYear env <= 10000)%Z ->
  window env date
  = ((four_digits (currentYear env - 15) ++ two_digits (1 + m0) ++ two_digits d)%string,
     (four_digits (currentYear env - 1) ++ two_digits (1 + m0) ++ two_digits d)%string)
  /\ String.length (fst (window env date)) = 8%nat
  /\ String.length (snd (window env date)) = 8%nat.
Proof.
  intros Hdate Hm Hd Hyear.
  rewrite (window_of_valid_date env date y m0 d Hdate). unfold yyyymmdd.
  rewrite !padded_two_digits, !year_is_four_digits by lia.
  repeat split.
Qed.

(** X19, witnessed: 5 March, asked in 2025. *)
Lemma X19_window_format_witness :
  window asked_in_march (JStr "2025-03-05") = ("20100305"%string, "20240305"%string)
  /\ String.length (fst (window asked_in_march (JStr "2025-03-05"))) = 8%nat
  /\ String.length (snd (window asked_in_march (JStr "2025-03-05"))) = 8%nat.
Proof.
  apply (X19_window_format asked_in_march (JStr "2025-03-05") 2025 2 5).
  - reflexivity.
  - lia.
  - lia.
  - unfold asked_in_march. cbn [currentYear]. lia.
Defined.

(** ** What the pooling order changes *)

Section PoolingOrder.

Lemma filter_length_permutation {A} (p : A -> bool) (l l' : list A) :
  Permutation l l' -> List.length (filter p l) = List.length (filter p l').
Proof.
  induction 1 as [|y l l' _ IH|x y l|l l' l'' _ IH1 _ IH2]; cbn [filter].
  - reflexivity.
  - destruct (p y); cbn [List.length]; rewrite IH; reflexivity.
  - destruct (p x), (p y); reflexivity.
  - rewrite IH1. exact IH2.
Qed.

Lemma probability_permutation (p : number -> bool) (vs vs' : list number) :
  Permutation vs vs' -> probability p vs = probability p vs'.
Proof.
  intros H. unfold probability, len.
  rewrite (filter_length_permutation p vs vs' H), (Permutation_length H).
  reflexivity.
Qed.

End PoolingOrder.

(** X20: pooling the same values in another order (another order of the
    grid points, say) changes none of the four probabilities, nor
    data_points.  The order is not indifferent to the other fields: a
    sum in binary64 depends on the order of its terms, and so does the
    average. *)
Theorem X20_order_leaves_probabilities (gridCount : nat)
    (temps temps' precip precip' wind wind' : list number) :
  Permutation temps temps' -> Permutation precip precip' ->
  Permutation wind wind' ->
  let r := assemble gridCount {| allTempValues := temps;
                                 allPrecipValues := precip;
                                 allWindValues := wind |} in
  let r' := assemble gridCount {| allTempValues := temps';
                                  allPrecipValues := precip';
                                  allWindValues := wind' |} in
  rain_probability r = rain_probability r'
  /\ hot_probability r = hot_probability r'
  /\ cold_probability r = cold_probability r'
  /\ wind_probability r = wind_probability r'
  /\ data_points r = data_points r'.
Proof.
  intros Ht Hp Hw r r'. unfold r, r', assemble.
  cbn [rain_probability hot_probability cold_probability wind_probability data_points
       allTempValues allPrecipValues allWindValues].
  rewrite (probability_permutation rainy _ _ Hp).
  rewrite (probability_permutation hot _ _ Ht).
  rewrite (probability_permutation cold _ _ Ht).
  rewrite (probability_permutation windy _ _ Hw).
  unfold len. rewrite (Permutation_length Ht).
  repeat split.
Qed.

(** X20, witnessed: 26.8, 21.0, -3.1, 14.3 pooled in two orders; the
    probabilities agree, the averages do not (14.8 against 14.7). *)
Lemma X20_order_leaves_probabilities_witness :
  let r := assemble 5 (temperatures_only
                         (map literal [268 # 10; 21; - 31 # 10; 143 # 10])) in
  let r' := assemble 5 (temperatures_only
                          (map literal [268 # 10; 21; 143 # 10; - 31 # 10])) in
  (rain_probability r = rain_probability r'
   /\ hot_probability r = hot_probability r'
   /\ cold_probability r = cold_probability r'
   /\ wind_probability r = wind_probability r'
   /\ data_points r = data_points r')
  /\ cold_probability r = Fin 25
  /\ average_temp r = literal (148 # 10) /\ average_temp r' = literal (147 # 10).
Proof.
  split.
  - apply (X20_order_leaves_probabilities 5
             (map literal [268 # 10; 21; - 31 # 10; 143 # 10])
             (map literal [268 # 10; 21; 143 # 10; - 31 # 10]) [] [] [] []).
    + apply perm_skip. apply perm_skip. apply perm_swap.
    + constructor.
    + constructor.
  - repeat split; vm_compute; reflexivity.
Defined.

(** ** Degenerate samples *)

Section Deviation.

Lemma round64_zero (q : Q) : q == 0 -> round64 q = Fin 0.
Proof. intros H. rewrite (round64_comp q 0 H). reflexivity. Qed.

Lemma round64_not_NaN (q : Q) : round64 q <> NaN.
Proof.
  rewrite round64_unfold. cbv zeta.
  destruct (Qeq_bool (Qred q) 0); [discriminate|].
  destruct (Qle_bool _ _); [destruct (Qle_bool _ _)|]; discriminate.
Qed.

Lemma round64_nonneg_or_infinite (q : Q) : 0 <= q -> nonneg_or_infinite (round64 q).
Proof.
  intros H0. rewrite round64_unfold. cbv zeta.
  destruct (Qeq_bool (Qred q) 0) eqn:Ez; [apply Qle_refl|].
  assert (Hr : 0 < Qred q).
  { apply Qeq_bool_false_pos; [rewrite Qred_correct; exact H0 | exact Ez]. }
  destruct (Qle_bool (pow2 1024) _).
  - destruct (Qle_bool 0 (Qred q)) eqn:E; [exact I|].
    exfalso. assert (H : 0 <= Qred q) by lra. apply Qle_bool_iff in H. congruence.
  - cbn [nonneg_or_infinite]. rewrite Qred_correct.
    exact (proj1 (rounded_bounds (Qred q) Hr)).
Qed.

Lemma square_nonneg_or_infinite (v mean : Q) :
  nonneg_or_infinite (Math_pow (nsub (Fin v) (Fin mean)) 2).
Proof.
  unfold Math_pow, nsub. cbn [pow_with sub_with].
  assert (H := round64_not_NaN (v - mean)).
  destruct (round64 (v - mean)) as [d| | |]; cbn [mul_with scale_inf].
  - apply round64_nonneg_or_infinite. apply Qsquare_nonneg.
  - contradiction.
  - exact I.
  - exact I.
Qed.

Lemma nadd_nonneg_or_infinite (x y : number) :
  nonneg_or_infinite x -> nonneg_or_infinite y -> nonneg_or_infinite (nadd x y).
Proof.
  unfold nadd. destruct x as [a| | |], y as [b| | |]; cbn [nonneg_or_infinite add_with];
    try contradiction; try (intros; exact I).
  intros Ha Hb. apply round64_nonneg_or_infinite. lra.
Qed.

Lemma sum_nonneg_or_infinite (l : list number) (acc : number) :
  Forall nonneg_or_infinite l -> nonneg_or_infinite acc ->
  nonneg_or_infinite (fold_left nadd l acc).
Proof.
  intros H. revert acc. induction H as [|x l Hx _ IH]; intros acc Hacc; cbn [fold_left].
  - exact Hacc.
  - apply IH. apply nadd_nonneg_or_infinite; assumption.
Qed.

Lemma ndiv_nonneg_or_infinite (x : number) (n : nat) :
  (0 < n)%nat -> nonneg_or_infinite x -> nonneg_or_infinite (ndiv x (of_nat n)).
Proof.
  intros Hn. assert (Hpos : 0 < inject_Z (Z.of_nat n)).
  { change 0 with (inject_Z 0). rewrite <- Zlt_Qlt. lia. }
  unfold ndiv, of_nat, of_Z.
  destruct x as [a| | |]; cbn [nonneg_or_infinite div_with]; try contradiction.
  - intros Ha. destruct (Qeq_bool (inject_Z (Z.of_nat n)) 0) eqn:E.
    + apply Qeq_bool_eq in E. lra.
    + apply round64_nonneg_or_infinite. apply Qle_shift_div_l; lra.
  - intros _. destruct (Qcompare_spec (inject_Z (Z.of_nat n)) 0) as [E|E|E];
      try exact I. lra.
Qed.

Lemma sqrt_nonneg_or_infinite (x : number) :
  nonneg_or_infinite x -> nonneg_or_infinite (Math_sqrt x).
Proof.
  destruct x as [a| | |]; cbn [nonneg_or_infinite Math_sqrt]; try contradiction;
    [|intros; exact I].
  intros Ha. apply Qle_bool_iff in Ha. rewrite Ha. unfold sqrt64.
  destruct (Qnum (Qred a) =? 0)%Z; [apply Qle_refl|].
  apply round64_nonneg_or_infinite. unfold Qle. cbn [Qnum Qden].
  assert (H := Z.sqrt_nonneg (Qnum (Qred a) * 4 ^ (64 + Z.log2 (Zpos (Qden (Qred a))))
                              / Zpos (Qden (Qred a)))).
  destruct (_ =? _)%Z; lia.
Qed.

Lemma sum_of_zeros (n : nat) : sum (repeat (Fin 0) n) = Fin 0.
Proof.
  unfold sum, sum_with. induction n as [|n IH]; [reflexivity|].
  cbn [repeat fold_left add_with]. rewrite (round64_zero (0 + 0)) by reflexivity.
  exact IH.
Qed.

Lemma sqrt_of_zero : Math_sqrt (Fin 0) = Fin 0.
Proof. vm_compute. reflexivity. Qed.

Lemma quotient_of_zero (n : nat) : (0 < n)%nat -> ndiv (Fin 0) (of_nat n) = Fin 0.
Proof.
  intros Hn. unfold ndiv, of_nat, of_Z. cbn [div_with].
  destruct (Qeq_bool (inject_Z (Z.of_nat n)) 0) eqn:E.
  - apply Qeq_bool_eq in E. unfold Qeq in E. cbn in E. lia.
  - apply round64_zero. unfold Qdiv. ring.
Qed.

Lemma square_of_difference (v : Q) : Math_pow (nsub (Fin v) (Fin v)) 2 = Fin 0.
Proof.
  unfold Math_pow, nsub. cbn [pow_with sub_with].
  rewrite (round64_zero (v - v)) by ring. cbn [mul_with].
  apply round64_zero. ring.
Qed.

Lemma calculateStdDev_constant (mean : Q) (n : nat) :
  calculateStdDev (repeat (Fin mean) n) (Fin mean) = Fin 0.
Proof.
  unfold calculateStdDev. rewrite repeat_length.
  destruct (Nat.eqb_spec n 0) as [E|E]; [reflexivity|].
  assert (Hmap : map (fun v => Math_pow (nsub v (Fin mean)) 2) (repeat (Fin mean) n)
                 = repeat (Fin 0) n).
  { clear E. induction n as [|n IH]; [reflexivity|].
    cbn [repeat map]. rewrite IH, square_of_difference. reflexivity. }
  rewrite Hmap, sum_of_zeros. unfold len. rewrite repeat_length.
  rewrite quotient_of_zero by lia. exact sqrt_of_zero.
Qed.

End Deviation.

(** X23: on finite values and a finite mean [calculateStdDev] returns a
    finite value that is not negative, or [+Infinity] (when a square or
    their sum overflows): never [NaN], never a negative value.  It
    returns 0 when every value equals the mean it is given. *)
Theorem X23_deviation_is_not_negative :
  (forall (values : list Q) (mean : Q),
      nonneg_or_infinite (calculateStdDev (map Fin values) (Fin mean)))
  /\ (forall (mean : Q) (n : nat),
         calculateStdDev (repeat (Fin mean) n) (Fin mean) = Fin 0).
Proof.
  split.
  - intros values mean. unfold calculateStdDev. rewrite length_map.
    destruct (Nat.eqb_spec (List.length values) 0) as [E|E]; [apply Qle_refl|].
    apply sqrt_nonneg_or_infinite. unfold len. rewrite length_map.
    apply ndiv_nonneg_or_infinite; [lia|].
    unfold sum, sum_with. apply sum_nonneg_or_infinite; [|apply Qle_refl].
    apply Forall_forall. intros x Hx. apply in_map_iff in Hx.
    destruct Hx as (y & <- & Hy). apply in_map_iff in Hy. destruct Hy as (v & <- & _).
    apply square_nonneg_or_infinite.
  - exact calculateStdDev_constant.
Qed.

(** The deviation of 2, 4, 4, 4, 5, 5, 7, 9 around their mean 5 is 2; a
    square that overflows gives [+Infinity]. *)
Example deviation_samples :
  calculateStdDev (map Fin [2; 4; 4; 4; 5; 5; 7; 9]) (Fin 5) = Fin 2
  /\ Math_sqrt (Fin 2) = Fin (6369051672525773 # 4503599627370496)
  /\ calculateStdDev [Fin (inject_Z (2 ^ 600)); Fin 0] (Fin 0) = PosInf.
Proof. repeat split; vm_compute; reflexivity. Qed.

(** X24: when the pooled temperature sample holds a single value [v], the
    prediction reports [v] rounded to one decimal as average_temp, a
    deviation of 0, a confidence range of zero width at the average, a
    trend of 0 labelled "stable", and data_points 1. *)
Theorem X24_single_value_sample (gridCount : nat) (v : Q)
    (precip wind : list number) :
  round64 v = Fin v ->
  let r := assemble gridCount {| allTempValues := [Fin v];
                                 allPrecipValues := precip;
                                 allWindValues := wind |} in
  average_temp r = round_to 10 (Fin v)
  /\ temp_std_dev r = Fin 0
  /\ temp_confidence_range r
     = {| lower := round_to 10 (Fin v); upper := round_to 10 (Fin v) |}
  /\ temp_trend r = "stable"%string
  /\ temp_trend_value r = Fin 0
  /\ data_points r = Fin 1.
Proof.
  intros Hv r.
  assert (Havg : average [Fin v] (Fin 20) = Fin v).
  { unfold average, sum, sum_with, len, ndiv, of_nat, of_Z.
    cbn [List.length Nat.ltb Nat.leb fold_left add_with].
    rewrite (round64_comp (0 + v) v) by ring. rewrite Hv. cbn [div_with].
    change (inject_Z (Z.of_nat 1)) with 1.
    change (Qeq_bool 1 0) with false. cbv iota.
    rewrite (round64_comp (v / 1) v) by (field; discriminate).
    exact Hv. }
  assert (Hstd : calculateStdDev [Fin v] (Fin v) = Fin 0).
  { exact (calculateStdDev_constant v 1). }
  assert (Hmargin : margin_of_error [Fin v] (Fin 0) = Fin 0).
  { vm_compute. reflexivity. }
  assert (Hlow : nsub (Fin v) (Fin 0) = Fin v).
  { unfold nsub. cbn [sub_with]. rewrite (round64_comp (v - 0) v) by ring. exact Hv. }
  assert (Hup : nadd (Fin v) (Fin 0) = Fin v).
  { unfold nadd. cbn [add_with]. rewrite (round64_comp (v + 0) v) by ring. exact Hv. }
  unfold r, assemble.
  cbn [average_temp temp_std_dev temp_confidence_range temp_trend temp_trend_value
       data_points allTempValues].
  rewrite Havg, Hstd, Hmargin, Hlow, Hup.
  split; [reflexivity|]. split; [vm_compute; reflexivity|].
  split; [reflexivity|]. split; [vm_compute; reflexivity|].
  split; vm_compute; reflexivity.
Qed.

(** X24, witnessed: a single temperature of 21.5 degrees. *)
Lemma X24_single_value_sample_witness :
  let r := assemble 5 (temperatures_only [Fin (43 # 2)]) in
  average_temp r = round_to 10 (Fin (43 # 2))
  /\ temp_std_dev r = Fin 0
  /\ temp_confidence_range r
     = {| lower := round_to 10 (Fin (43 # 2)); upper := round_to 10 (Fin (43 # 2)) |}
  /\ temp_trend r = "stable"%string
  /\ temp_trend_value r = Fin 0
  /\ data_points r = Fin 1.
Proof.
  apply (X24_single_value_sample 5 (43 # 2) [] []). vm_compute. reflexivity.
Defined.
